(** * emmet-core: VASP task documents and their validation

    A shallow embedding of
      - [emmet/core/vasp/validation.py]  ([ValidationDoc.from_task_doc]) and
      - [emmet/core/vasp/task.py]        ([TaskDocument.run_type], [entry],
                                          [structure_entry]),
    followed by the properties of the validation / entry-derivation layer.

    Conventions of the embedding
      - Python [float] and [numpy.float64] are IEEE binary64: Rocq's
        primitive [float].  Python [int] is [Z]; [numpy.int64] is [Z]
        reduced to the signed 64-bit range.
      - A raised exception is the [Raise] branch of [Result]; statements
        are sequenced in source order, so the first exception wins.
      - A [dict] whose keys are fixed by the schema is a record whose
        fields are [option]s ([None] = key absent); a [dict] with free
        string keys is a [gmap string _]; a [dict] that is iterated is an
        association list in insertion order.
      - pymatgen (structures, input sets) and
        [emmet.core.vasp.calc_types] are collaborators outside the
        package: they enter through the class [Collaborators].  The
        dictionary round trip of pymatgen's entries, which
        [structure_entry] goes through, is modelled ([as_dict],
        [ComputedStructureEntry_from_dict]). *)

From Stdlib Require Import ZArith Floats Bool.
From stdpp Require Import gmap strings list.

Open Scope Z_scope.
#[local] Set Warnings "-inexact-float".

(** ** Exceptions and the result monad *)

Inductive exn : Type :=
  | IndexError
  | KeyError (key : string)
  | TypeError
  | ValueError
  | AttributeError
  | ZeroDivisionError
  | OverflowError.

Inductive Result (A : Type) : Type :=
  | Ok (a : A)
  | Raise (e : exn).
Arguments Ok {A} a.
Arguments Raise {A} e.

#[export] Instance Result_bind : MBind Result := fun A B k r =>
  match r with
  | Ok a => k a
  | Raise e => Raise e
  end.

#[export] Instance Result_ret : MRet Result := fun A a => Ok a.

(** [d[key]] on an optional entry: absent raises [KeyError]. *)
Definition subscript {A : Type} (key : string) (o : option A) : Result A :=
  match o with
  | Some a => Ok a
  | None => Raise (KeyError key)
  end.

(** [l[0]] and [l[-1]] on a list. *)
Definition first_item {A : Type} (l : list A) : Result A :=
  match l with
  | a :: _ => Ok a
  | [] => Raise IndexError
  end.

Definition last_item {A : Type} (l : list A) : Result A :=
  match last l with
  | Some a => Ok a
  | None => Raise IndexError
  end.

Fixpoint rmap {A B : Type} (f : A -> Result B) (l : list A) : Result (list B) :=
  match l with
  | [] => Ok []
  | a :: l' => b ← f a; bs ← rmap f l'; Ok (b :: bs)
  end.

(** ** Numbers *)

(** A JSON / INCAR number: Python [int] or [float]. *)
Inductive pynum : Type :=
  | PInt (z : Z)
  | PFloat (f : float).

(** Conversion of an integer to binary64, round to nearest even
    (infinite when out of range). *)
Definition Z2float (z : Z) : float :=
  SF2Prim (binary_normalize prec emax z 0 false).

Definition is_inf (f : float) : bool :=
  PrimFloat.eqb (PrimFloat.abs f) infinity.

(** [float(x)]: [None] is a [TypeError]; an [int] too large for a double
    is an [OverflowError]. *)
Definition py_float (x : option pynum) : Result float :=
  match x with
  | None => Raise TypeError
  | Some (PFloat f) => Ok f
  | Some (PInt z) =>
      let f := Z2float z in
      if is_inf f then Raise OverflowError else Ok f
  end.

(** [a / b] for a Python [float] [a] and a Python number [b]
    ([float.__truediv__]): a zero divisor raises [ZeroDivisionError]. *)
Definition float_truediv (a : float) (b : pynum) : Result float :=
  match b with
  | PInt z =>
      if z =? 0 then Raise ZeroDivisionError
      else
        let g := Z2float z in
        if is_inf g then Raise OverflowError else Ok (PrimFloat.div a g)
  | PFloat g =>
      if PrimFloat.eqb g 0%float then Raise ZeroDivisionError
      else Ok (PrimFloat.div a g)
  end.

(** A zero divisor: the [int] 0 or a [float] equal to 0.0. *)
Definition pynum_is_zero (b : pynum) : bool :=
  match b with
  | PInt z => z =? 0
  | PFloat g => PrimFloat.eqb g 0%float
  end.

(** The double a Python number stands for in float arithmetic: an [int]
    is converted, a [float] is itself. *)
Definition pynum_float (n : pynum) : float :=
  match n with
  | PInt z => Z2float z
  | PFloat g => g
  end.

(** [f == z] for a [float] and an [int]: Python compares the exact
    values. *)
Definition float_eq_int (f : float) (z : Z) : bool :=
  match Prim2SF f with
  | S754_zero _ => z =? 0
  | S754_finite s m e =>
      let v := cond_Zopp s (Zpos m) in
      if 0 <=? e then z =? v * 2 ^ e else z * 2 ^ (- e) =? v
  | _ => false
  end.

Definition pynum_eq (a b : pynum) : bool :=
  match a, b with
  | PInt x, PInt y => x =? y
  | PFloat x, PFloat y => PrimFloat.eqb x y
  | PInt x, PFloat y => float_eq_int y x
  | PFloat x, PInt y => float_eq_int x y
  end.

(** [==] on tuples of numbers: same length, equal item by item. *)
Fixpoint tuple_eq (s t : list pynum) : bool :=
  match s, t with
  | [], [] => true
  | a :: s', b :: t' => pynum_eq a b && tuple_eq s' t'
  | _, _ => false
  end.

Definition tuple_ne (s t : list pynum) : bool := negb (tuple_eq s t).

(** A k-point count is a Python [int] (a stored count) or a
    [numpy.int64] (the result of [np.prod]). *)
Inductive count : Type :=
  | PyInt (z : Z)
  | NpInt64 (z : Z).

Definition count_val (c : count) : Z :=
  match c with PyInt z | NpInt64 z => z end.

Definition wrap64 (z : Z) : Z :=
  (z + 2 ^ 63) mod 2 ^ 64 - 2 ^ 63.

(** An integer array as [np.prod] receives it: a flat list such as the
    default [[1, 1, 1]], or a list of rows such as [[[4, 4, 4]]]. *)
Inductive intarray : Type :=
  | Arr1 (l : list Z)
  | Arr2 (rows : list (list Z)).

Definition entries (a : intarray) : list Z :=
  match a with
  | Arr1 l => l
  | Arr2 rows => concat rows
  end.

(** [np.prod]: the product of all entries in 64-bit arithmetic. *)
Definition np_prod (a : intarray) : Z :=
  fold_left (fun acc x => wrap64 (acc * x)) (entries a) 1.

(** [x or y] where [x] is a Python [int] and [y] is an [np.prod]. *)
Definition count_or (x : Z) (y : Z) : count :=
  if x =? 0 then NpInt64 y else PyInt x.

(** [a / b] for two Python ints ([int.__truediv__]): a zero divisor
    raises [ZeroDivisionError]; otherwise the result is the exact quotient
    rounded once to the nearest double (ties to even), with the sign of the
    quotient also on a zero result, and a quotient too large for a double
    raises [OverflowError].  The quotient of the magnitudes is taken with
    enough bits and its remainder located, as binary64 division does on
    mantissas, here on integers of any size. *)
Definition int_truediv (a b : Z) : Result float :=
  if b =? 0 then Raise ZeroDivisionError
  else
    let negate := xorb (a <? 0) (b <? 0) in
    let '(q, e, l) := SFdiv_core_binary prec emax (Z.abs a) 0 (Z.abs b) 0 in
    let r := SF2Prim (binary_round_aux prec emax negate q e l) in
    if is_inf r then Raise OverflowError else Ok r.

(** [a / b] on counts.  Two Python ints divide as Python does; as soon
    as one side is a numpy scalar the division is numpy's [true_divide] on
    doubles, which never raises: a zero divisor gives an infinity or
    NaN. *)
Definition count_truediv (a b : count) : Result float :=
  match a, b with
  | PyInt x, PyInt y => int_truediv x y
  | _, _ => Ok (PrimFloat.div (Z2float (count_val a)) (Z2float (count_val b)))
  end.

(** ** numpy on lists of doubles *)

(** [np.gradient(f)] with unit spacing and [edge_order=1]: one-sided
    differences at both ends, central differences inside; fewer than two
    samples is a [ValueError]. *)
Fixpoint central (l : list float) : list float :=
  match l with
  | a :: ((_ :: c :: _) as t) =>
      PrimFloat.div (PrimFloat.sub c a) (PrimFloat.mul 2 1) :: central t
  | _ => []
  end.

Fixpoint backward_edge (l : list float) : list float :=
  match l with
  | [a; b] => [PrimFloat.div (PrimFloat.sub b a) 1]
  | _ :: t => backward_edge t
  | [] => []
  end.

Definition np_gradient (l : list float) : Result (list float) :=
  match l with
  | a :: b :: _ =>
      Ok (PrimFloat.div (PrimFloat.sub b a) 1 :: central l ++ backward_edge l)
  | _ => Raise ValueError
  end.

(** [np.maximum], which propagates NaN, and [np.max], a [ValueError] on
    an empty array. *)
Definition np_maximum (a b : float) : float :=
  if PrimFloat.is_nan a then a
  else if PrimFloat.is_nan b then b
  else if PrimFloat.ltb a b then b else a.

Definition np_max (l : list float) : Result float :=
  match l with
  | [] => Raise ValueError
  | a :: t => Ok (fold_left np_maximum t a)
  end.

(** [l[skip:]]: [None] keeps everything, a negative index counts from
    the end. *)
Definition slice_from {A : Type} (skip : option Z) (l : list A) : list A :=
  match skip with
  | None => l
  | Some k =>
      if 0 <=? k then drop (Z.to_nat k) l
      else drop (Z.to_nat (Z.max 0 (Z.of_nat (length l) + k))) l
  end.

(** ** Data model *)

(** A value of a free-form parameter dictionary. *)
Inductive pyval : Type :=
  | VBool (b : bool)
  | VNum (n : pynum)
  | VStr (s : string)
  | VList (l : list pynum).

(** An INCAR dictionary, by the kind of its entries: the scalar tags the
    validation reads, and the per-element list tags ([LDAUU], [LDAUJ],
    [LDAUL], ...), which are looked up by configurable name. *)
Record Incar : Type := {
  incar_ENCUT : option pynum;
  incar_NLEMDL : option Z;
  incar_LDAU : option bool;
  incar_lists : gmap string (list pynum)
}.

(** The empty dictionary [{}] as an INCAR. *)
Definition empty_incar : Incar :=
  {| incar_ENCUT := None; incar_NLEMDL := None; incar_LDAU := None;
     incar_lists := ∅ |}.

(** [orig_inputs["kpoints"]]. *)
Record KpointsDict : Type := {
  nkpoints : option Z;
  kpoints : option intarray
}.

Definition empty_kpoints : KpointsDict :=
  {| nkpoints := None; kpoints := None |}.

(** [TaskDocument.orig_inputs]. *)
Record OrigInputs : Type := {
  oi_kpoints : option KpointsDict;
  oi_incar : option Incar
}.

(** One element of [calcs_reversed], down to the fields that are read. *)
Record ElectronicStep : Type := { e_fr_energy : option float }.
Record IonicStep : Type := { electronic_steps : option (list ElectronicStep) }.
Record CalcOutput : Type := { ionic_steps : option (list IonicStep) }.
Record CalcInput : Type := {
  ci_parameters : option (gmap string pyval);
  ci_incar : option Incar
}.
Definition empty_calc_input : CalcInput :=
  {| ci_parameters := None; ci_incar := None |}.

Record Calc : Type := {
  calc_input : option CalcInput;
  calc_output : option CalcOutput
}.

(** The reference input set built by [input_sets[task_type](structure)],
    as far as the validation reads it: [kpoints.num_kpts],
    [kpoints.kpts], [incar] and [poscar.structure.symbol_set]. *)
Record VaspInputSet : Type := {
  vis_num_kpts : Z;
  vis_kpts : list (list Z);
  vis_incar : Incar;
  vis_symbol_set : list string
}.

(** [Union[MPID, int]]. *)
Inductive TaskId : Type :=
  | MPID (s : string)
  | IntId (z : Z).

(** [DeprecationMessage]. *)
Inductive DeprecationMessage : Type :=
  | MANUAL
  | KPTS
  | ENCUT
  | FORCES
  | CONVERGENCE
  | MAX_SCF
  | LDAU.

#[export] Instance DeprecationMessage_eq_dec : EqDecision DeprecationMessage.
Proof. solve_decision. Defined.

(** The collaborators: pymatgen's [Structure] with [symbol_set] and
    [composition], [oxide_type], and the classifiers [task_type] and
    [run_type] of [emmet.core.vasp.calc_types] (results as their string
    values). *)
Class Collaborators : Type := {
  Structure : Type;
  Composition : Type;
  symbol_set : Structure -> list string;
  composition : Structure -> Composition;
  oxide_type : Structure -> string;
  task_type_of : OrigInputs -> string;
  run_type_of : gmap string pyval -> string
}.

Section Emmet.
Context `{C : Collaborators}.

Record InputSummary : Type := {
  is_parameters : gmap string pyval;
  potcar_spec : list (gmap string string);
  is_hubbard : bool;
  hubbards : gmap string pynum
}.

Record OutputSummary : Type := {
  out_structure : option Structure;
  out_energy : option float
}.

(** [TaskDocument] ([emmet.core.vasp.task]), with the fields of the base
    document that the code below reads. *)
Record TaskDocument : Type := {
  task_id : TaskId;
  last_updated : Z;
  tags : list string;
  input : InputSummary;
  output : OutputSummary;
  orig_inputs : OrigInputs;
  calcs_reversed : list Calc
}.

(** [ValidationDoc]; [task_type] and [run_type] are the extra fields the
    constructor call passes. *)
Record ValidationDoc : Type := {
  vd_task_id : TaskId;
  vd_task_type : string;
  vd_run_type : string;
  valid : bool;
  reasons : list DeprecationMessage;
  data : gmap string float
}.

(** A [ComputedEntry] as the dictionary it is built from. *)
Record EntryParameters : Type := {
  ep_potcar_spec : list (gmap string string);
  ep_is_hubbard : bool;
  ep_hubbards : gmap string pynum;
  ep_run_type : string
}.

Record EntryData : Type := {
  ed_oxide_type : string;
  ed_aspherical : pyval;
  ed_last_updated : Z
}.

Record ComputedEntry : Type := {
  correction : float;
  entry_id : TaskId;
  entry_composition : Composition;
  energy : option float;
  parameters : EntryParameters;
  entry_data : EntryData
}.

(** A [ComputedStructureEntry]: the same dictionary plus ["structure"]. *)
Record ComputedStructureEntry : Type := {
  cse_correction : float;
  cse_entry_id : TaskId;
  cse_composition : Composition;
  cse_energy : option float;
  cse_parameters : EntryParameters;
  cse_data : EntryData;
  cse_structure : option Structure
}.

(** ** [emmet/core/vasp/task.py] *)

(** [{k: incar.get(k, []) for k in ["LDAUL", "LDAUJ", "LDAUU"]}] *)
Definition ldau_fields_of (inc : Incar) : gmap string pyval :=
  list_to_map
    (map (fun k => (k, VList (default [] (incar_lists inc !! k))))
         ["LDAUL"; "LDAUJ"; "LDAUU"]).

(** The argument of [run_type]: [{**params, **ldau_fields}] computed from
    one calculation step; on a shared key [ldau_fields] wins. *)
Definition run_type_args (c : Calc) : gmap string pyval :=
  let inp := default empty_calc_input (calc_input c) in
  let params := default ∅ (ci_parameters inp) in
  let ldau_fields := ldau_fields_of (default empty_incar (ci_incar inp)) in
  ldau_fields ∪ params.

(** [TaskDocument.run_type] *)
Definition run_type (self : TaskDocument) : Result string :=
  c ← first_item (calcs_reversed self);
  Ok (run_type_of (run_type_args c)).

(** [TaskDocument.task_type] *)
Definition task_type (self : TaskDocument) : string :=
  task_type_of (orig_inputs self).

(** [TaskDocument.entry].  The dictionary literal is evaluated top to
    bottom: [self.output.structure.composition] fails with
    [AttributeError] when there is no output structure, then
    [self.run_type] may fail. *)
Definition entry (self : TaskDocument) : Result ComputedEntry :=
  s ← match out_structure (output self) with
      | Some s => Ok s
      | None => Raise AttributeError
      end;
  rt ← run_type self;
  Ok {| correction := 0%float;
        entry_id := task_id self;
        entry_composition := composition s;
        energy := out_energy (output self);
        parameters :=
          {| ep_potcar_spec := potcar_spec (input self);
             ep_is_hubbard := is_hubbard (input self);
             ep_hubbards := hubbards (input self);
             ep_run_type := rt |};
        entry_data :=
          {| ed_oxide_type := oxide_type s;
             ed_aspherical :=
               default (VBool true) (is_parameters (input self) !! "LASPH");
             ed_last_updated := last_updated self |} |}.

(** A value stored in an entry dictionary. *)
Inductive entry_value : Type :=
  | EVstr (s : string)
  | EVfloat (x : float)
  | EVenergy (x : option float)
  | EVid (i : TaskId)
  | EVcomposition (c : Composition)
  | EVparameters (p : EntryParameters)
  | EVdata (d : EntryData)
  | EVstructure (s : option Structure).

(** Modelled from the spec: pymatgen's [ComputedEntry.as_dict] is not in
    the source.  The spec's "canonical entry record with composition,
    energy, Hubbard-U metadata, oxide type" is taken as: the dictionary
    holds the entry's fields under the keys [entry] built it from, next to
    the two class markers. *)
Definition as_dict (e : ComputedEntry) : gmap string entry_value :=
  <["@module" := EVstr "pymatgen.entries.computed_entries"]>
  (<["@class" := EVstr "ComputedEntry"]>
  (<["correction" := EVfloat (correction e)]>
  (<["entry_id" := EVid (entry_id e)]>
  (<["composition" := EVcomposition (entry_composition e)]>
  (<["energy" := EVenergy (energy e)]>
  (<["parameters" := EVparameters (parameters e)]>
  (<["data" := EVdata (entry_data e)]> ∅))))))).

(** Modelled from the spec: pymatgen's [ComputedStructureEntry.from_dict]
    is not in the source.  The spec's "Structure variant additionally
    embeds the output structure" is taken as: the entry is built from the
    structure under ["structure"], whose composition becomes the entry's
    (the ["composition"] key is not read), and from the values under
    ["energy"], ["correction"], ["parameters"], ["data"] and
    ["entry_id"]; a missing key is a [KeyError], no structure an
    [AttributeError]. *)
Definition ComputedStructureEntry_from_dict (d : gmap string entry_value)
    : Result ComputedStructureEntry :=
  s ← match d !! "structure" with
      | Some (EVstructure (Some s)) => Ok s
      | Some (EVstructure None) => Raise AttributeError
      | Some _ => Raise TypeError
      | None => Raise (KeyError "structure")
      end;
  en ← match d !! "energy" with
       | Some (EVenergy x) => Ok x
       | Some _ => Raise TypeError
       | None => Raise (KeyError "energy")
       end;
  corr ← match d !! "correction" with
         | Some (EVfloat x) => Ok x
         | Some _ => Raise TypeError
         | None => Raise (KeyError "correction")
         end;
  p ← match d !! "parameters" with
      | Some (EVparameters p) => Ok p
      | Some _ => Raise TypeError
      | None => Raise (KeyError "parameters")
      end;
  dt ← match d !! "data" with
       | Some (EVdata dt) => Ok dt
       | Some _ => Raise TypeError
       | None => Raise (KeyError "data")
       end;
  i ← match d !! "entry_id" with
      | Some (EVid i) => Ok i
      | Some _ => Raise TypeError
      | None => Raise (KeyError "entry_id")
      end;
  Ok {| cse_correction := corr;
        cse_entry_id := i;
        cse_composition := composition s;
        cse_energy := en;
        cse_parameters := p;
        cse_data := dt;
        cse_structure := Some s |}.

(** [TaskDocument.structure_entry]: [self.entry.as_dict()], then
    [entry_dict["structure"] = self.output.structure], then
    [ComputedStructureEntry.from_dict(entry_dict)]. *)
Definition structure_entry (self : TaskDocument) : Result ComputedStructureEntry :=
  e ← entry self;
  let entry_dict := as_dict e in
  let entry_dict :=
    <["structure" := EVstructure (out_structure (output self))]> entry_dict in
  ComputedStructureEntry_from_dict entry_dict.

(** ** [emmet/core/vasp/validation.py] *)

(** [zip(symbols, *fields)] as rows [(d[0], d[1:])]: it stops at the
    shortest argument. *)
Fixpoint zip_rows (symbols : list string) (fields : list (list pynum))
  : list (string * list pynum) :=
  match symbols with
  | [] => []
  | el :: symbols' =>
      match mapM head fields with
      | Some params => (el, params) :: zip_rows symbols' (map tail fields)
      | None => []
      end
  end.

(** [d[k] = v] on a dictionary kept in insertion order: an existing key
    keeps its place and takes the new value. *)
Fixpoint dict_set {V : Type} (k : string) (v : V) (d : list (string * V))
  : list (string * V) :=
  match d with
  | [] => [(k, v)]
  | (k', v') :: d' =>
      if String.eqb k k' then (k, v) :: d' else (k', v') :: dict_set k v d'
  end.

Fixpoint dict_get {V : Type} (k : string) (d : list (string * V)) : option V :=
  match d with
  | [] => None
  | (k', v') :: d' => if String.eqb k k' then Some v' else dict_get k d'
  end.

(** [{d[0]: d[1:] for d in rows}] *)
Definition dict_of_rows {V : Type} (rows : list (string * V)) : list (string * V) :=
  fold_left (fun d r => dict_set (fst r) (snd r) d) rows [].

(** [any(input_set_ldau_params[el] != input_params
         for el, input_params in input_ldau_params.items())]:
    the items are visited in order, the first mismatch ends the search,
    and an element without reference parameters met before that is a
    [KeyError]. *)
Fixpoint any_mismatch (input_set_ldau_params input_ldau_params : list (string * list pynum))
  : Result bool :=
  match input_ldau_params with
  | [] => Ok false
  | (el, input_params) :: rest =>
      ref_params ← subscript el (dict_get el input_set_ldau_params);
      if tuple_ne ref_params input_params then Ok true
      else any_mismatch input_set_ldau_params rest
  end.

(** The local state of [from_task_doc]: [reasons] and [data]. *)
Definition Checks : Type := list DeprecationMessage * gmap string float.

(** [inputs.get("incar", {})] *)
Definition inputs_incar (inputs : OrigInputs) : Incar :=
  default empty_incar (oi_incar inputs).

(** [valid_input_set.kpoints.num_kpts or np.prod(valid_input_set.kpoints.kpts[0])] *)
Definition valid_num_kpts (valid_input_set : VaspInputSet) : Result count :=
  if vis_num_kpts valid_input_set =? 0 then
    row ← first_item (vis_kpts valid_input_set);
    Ok (NpInt64 (np_prod (Arr1 row)))
  else Ok (PyInt (vis_num_kpts valid_input_set)).

(** [inputs.get("kpoints", {}).get("nkpoints", 0)
     or np.prod(inputs.get("kpoints", {}).get("kpoints", [1, 1, 1]))] *)
Definition num_kpts (inputs : OrigInputs) : count :=
  let kp := default empty_kpoints (oi_kpoints inputs) in
  count_or (default 0 (nkpoints kp))
           (np_prod (default (Arr1 [1; 1; 1]) (kpoints kp))).

(** Checking K-Points *)
Definition check_kpts (valid_input_set : VaspInputSet) (inputs : OrigInputs)
    (kpts_tolerance : float) (st : Checks) : Result Checks :=
  let '(reasons, data) := st in
  vnk ← valid_num_kpts valid_input_set;
  ratio ← count_truediv (num_kpts inputs) vnk;
  let data := <["kpts_ratio" := ratio]> data in
  Ok (if PrimFloat.ltb ratio kpts_tolerance then reasons ++ [KPTS] else reasons,
      data).

(** Checking ENCUT *)
Definition check_encut (valid_input_set : VaspInputSet) (inputs : OrigInputs)
    (st : Checks) : Result Checks :=
  let '(reasons, data) := st in
  let encut := incar_ENCUT (inputs_incar inputs) in
  valid_encut ← subscript "ENCUT" (incar_ENCUT (vis_incar valid_input_set));
  f ← py_float encut;
  ratio ← float_truediv f valid_encut;
  let data := <["encut_ratio" := ratio]> data in
  Ok (if PrimFloat.ltb ratio 1 then reasons ++ [ENCUT] else reasons, data).

(** The observed and the reference per-element parameters, as the rows
    the two dictionaries are built from. *)
Definition input_ldau_rows (s : Structure) (inputs : OrigInputs)
    (LDAU_fields : list string) : list (string * list pynum) :=
  zip_rows (symbol_set s)
    (map (fun k => default [] (incar_lists (inputs_incar inputs) !! k)) LDAU_fields).

(** [valid_input_set.incar.get(k)] is [None] for an absent tag, which
    [zip] rejects with a [TypeError]. *)
Definition input_set_ldau_rows (valid_input_set : VaspInputSet)
    (LDAU_fields : list string) : Result (list (string * list pynum)) :=
  fields ← rmap (fun k =>
             match incar_lists (vis_incar valid_input_set) !! k with
             | Some l => Ok l
             | None => Raise TypeError
             end) LDAU_fields;
  Ok (zip_rows (vis_symbol_set valid_input_set) fields).

(** The comparison of the two dictionaries. *)
Definition ldau_mismatch (input_set_rows input_rows : list (string * list pynum))
  : Result bool :=
  any_mismatch (dict_of_rows input_set_rows) (dict_of_rows input_rows).

(** Checking U-values *)
Definition check_ldau (structure : option Structure)
    (valid_input_set : VaspInputSet) (inputs : OrigInputs)
    (LDAU_fields : list string) (st : Checks) : Result Checks :=
  let '(reasons, data) := st in
  if default false (incar_LDAU (vis_incar valid_input_set)) then
    s ← match structure with
        | Some s => Ok s
        | None => Raise AttributeError
        end;
    let input_rows := input_ldau_rows s inputs LDAU_fields in
    input_set_rows ← input_set_ldau_rows valid_input_set LDAU_fields;
    b ← ldau_mismatch input_set_rows input_rows;
    Ok (if (b : bool) then reasons ++ [LDAU] else reasons, data)
  else Ok (reasons, data).

(** [[d["e_fr_energy"] for d in
      task_doc.calcs_reversed[0]["output"]["ionic_steps"][-1]["electronic_steps"]]] *)
Definition scf_energies (task_doc : TaskDocument) : Result (list float) :=
  c ← first_item (calcs_reversed task_doc);
  out ← subscript "output" (calc_output c);
  steps ← subscript "ionic_steps" (ionic_steps out);
  step ← last_item steps;
  esteps ← subscript "electronic_steps" (electronic_steps step);
  rmap (fun d => subscript "e_fr_energy" (e_fr_energy d)) esteps.

(** [np.max(np.gradient(energies)[skip:])] *)
Definition max_scf_gradient (skip : option Z) (energies : list float) : Result float :=
  g ← np_gradient energies;
  np_max (slice_from skip g).

(** Check the max upwards SCF step *)
Definition check_scf (task_doc : TaskDocument) (inputs : OrigInputs)
    (max_allowed_scf_gradient : float) (st : Checks) : Result Checks :=
  let '(reasons, data) := st in
  let skip := incar_NLEMDL (inputs_incar inputs) in
  energies ← scf_energies task_doc;
  max_gradient ← max_scf_gradient skip energies;
  let data := <["max_gradient" := max_gradient]> data in
  Ok (if PrimFloat.ltb max_allowed_scf_gradient max_gradient
      then reasons ++ [MAX_SCF] else reasons,
      data).

(** The body of [if task_type in input_sets:]. *)
Definition numeric_checks (task_doc : TaskDocument) (valid_input_set : VaspInputSet)
    (kpts_tolerance : float) (LDAU_fields : list string)
    (max_allowed_scf_gradient : float) (st : Checks) : Result Checks :=
  let structure := out_structure (output task_doc) in
  let inputs := orig_inputs task_doc in
  st ← check_kpts valid_input_set inputs kpts_tolerance st;
  st ← check_encut valid_input_set inputs st;
  st ← check_ldau structure valid_input_set inputs LDAU_fields st;
  check_scf task_doc inputs max_allowed_scf_gradient st.

(** [set(task_doc.tags) | set(dep_tags_)] *)
Definition manual_tags (task_doc : TaskDocument) (dep_tags_ : list string)
  : gset string :=
  list_to_set (tags task_doc) ∪ list_to_set dep_tags_.

(** The [if task_type in input_sets:] statement, from empty [reasons] and
    [data].  [input_sets] maps a task type to the constructor of its
    reference input set, applied to [task_doc.output.structure]. *)
Definition reference_checks (task_doc : TaskDocument)
    (kpts_tolerance : float)
    (input_sets : gmap string (option Structure -> Result VaspInputSet))
    (LDAU_fields : list string)
    (max_allowed_scf_gradient : float) : Result Checks :=
  match input_sets !! task_type task_doc with
  | Some make_input_set =>
      valid_input_set ← make_input_set (out_structure (output task_doc));
      numeric_checks task_doc valid_input_set kpts_tolerance LDAU_fields
        max_allowed_scf_gradient ([], ∅)
  | None => Ok ([], ∅)
  end.

(** [ValidationDoc.from_task_doc] *)
Definition from_task_doc (task_doc : TaskDocument)
    (kpts_tolerance : float)
    (input_sets : gmap string (option Structure -> Result VaspInputSet))
    (LDAU_fields : list string)
    (max_allowed_scf_gradient : float)
    (deprecated_tags : option (list string)) : Result ValidationDoc :=
  let dep_tags_ := default [] deprecated_tags in
  st ← reference_checks task_doc kpts_tolerance input_sets LDAU_fields
         max_allowed_scf_gradient;
  let reasons :=
    if bool_decide (manual_tags task_doc dep_tags_ ≠ ∅)
    then st.1 ++ [MANUAL] else st.1 in
  rt ← run_type task_doc;
  Ok {| vd_task_id := task_id task_doc;
        vd_task_type := task_type task_doc;
        vd_run_type := rt;
        valid := Nat.eqb (length reasons) 0;
        reasons := reasons;
        data := st.2 |}.

(** The same task record with another calculation history. *)
Definition with_calcs_reversed (task_doc : TaskDocument) (calcs : list Calc)
  : TaskDocument :=
  {| task_id := task_id task_doc;
     last_updated := last_updated task_doc;
     tags := tags task_doc;
     input := input task_doc;
     output := output task_doc;
     orig_inputs := orig_inputs task_doc;
     calcs_reversed := calcs |}.

(** ** Notions the properties are stated with *)

(** The reasons a check contributes: its code when it fires. *)
Definition flag (b : bool) (m : DeprecationMessage) : list DeprecationMessage :=
  if b then [m] else [].

(** Some element's per-element parameters differ between the observed
    and the reference association: the element has parameters on one side
    only, or the two tuples are unequal. *)
Definition parameters_differ (observed reference : list (string * list pynum)) : Prop :=
  ∃ el,
    match dict_get el observed, dict_get el reference with
    | Some p, Some q => tuple_ne q p = true
    | None, None => False
    | _, _ => True
    end.

(** Both associations give parameters for the same elements. *)
Definition same_elements (observed reference : list (string * list pynum)) : Prop :=
  ∀ el, is_Some (dict_get el observed) ↔ is_Some (dict_get el reference).

(** The reference input set of the task asks for LDAU, and [observed],
    [reference] are the rows of the two dictionaries the Hubbard-U check
    compares. *)
Definition ldau_compared (task_doc : TaskDocument)
    (input_sets : gmap string (option Structure -> Result VaspInputSet))
    (LDAU_fields : list string)
    (observed reference : list (string * list pynum)) : Prop :=
  ∃ make_input_set vis s,
    input_sets !! task_type task_doc = Some make_input_set ∧
    make_input_set (out_structure (output task_doc)) = Ok vis ∧
    default false (incar_LDAU (vis_incar vis)) = true ∧
    out_structure (output task_doc) = Some s ∧
    observed = input_ldau_rows s (orig_inputs task_doc) LDAU_fields ∧
    input_set_ldau_rows vis LDAU_fields = Ok reference.

(** What a successful pass through the four numeric checks establishes:
    the values each check computed, the flags in source order, and the
    diagnostics stored. *)
Inductive numeric_outcome (task_doc : TaskDocument) (vis : VaspInputSet)
    (tol : float) (fields : list string) (thr : float) : Checks → Prop :=
  | NumericOutcome (vnk : count) (kpts_ratio : float)
      (valid_encut : pynum) (encut encut_ratio : float)
      (ldau : bool) (energies : list float) (max_gradient : float) :
      valid_num_kpts vis = Ok vnk →
      count_truediv (num_kpts (orig_inputs task_doc)) vnk = Ok kpts_ratio →
      incar_ENCUT (vis_incar vis) = Some valid_encut →
      py_float (incar_ENCUT (inputs_incar (orig_inputs task_doc))) = Ok encut →
      float_truediv encut valid_encut = Ok encut_ratio →
      (if default false (incar_LDAU (vis_incar vis)) then
         ∃ s input_set_rows,
           out_structure (output task_doc) = Some s ∧
           input_set_ldau_rows vis fields = Ok input_set_rows ∧
           ldau_mismatch input_set_rows
             (input_ldau_rows s (orig_inputs task_doc) fields) = Ok ldau
       else ldau = false) →
      scf_energies task_doc = Ok energies →
      max_scf_gradient (incar_NLEMDL (inputs_incar (orig_inputs task_doc)))
        energies = Ok max_gradient →
      numeric_outcome task_doc vis tol fields thr
        (flag (PrimFloat.ltb kpts_ratio tol) KPTS
           ++ flag (PrimFloat.ltb encut_ratio 1) ENCUT
           ++ flag ldau LDAU
           ++ flag (PrimFloat.ltb thr max_gradient) MAX_SCF,
         <["max_gradient" := max_gradient]>
           (<["encut_ratio" := encut_ratio]>
              (<["kpts_ratio" := kpts_ratio]> ∅))).

End Emmet.

(** ** A concrete collaborator instance and sample documents *)

Module Sample.

(** Structures as their list of element symbols; the run type is GGA+U
    when the step lists [LDAUU] values. *)
Definition collaborators : Collaborators :=
  {| Structure := list string;
     Composition := list string;
     symbol_set := fun s => s;
     composition := fun s => s;
     oxide_type := fun _ => "None";
     task_type_of := fun _ => "Structure Optimization";
     run_type_of := fun args =>
       match args !! "LDAUU" with
       | Some (VList (_ :: _)) => "GGA+U"
       | _ => "GGA"
       end |}.

#[local] Existing Instance collaborators.

Definition FeO : list string := ["Fe"; "O"].

(** INCAR of a GGA+U run on Fe-O with a 520 eV cutoff. *)
Definition incar_U : Incar :=
  {| incar_ENCUT := Some (PInt 520);
     incar_NLEMDL := None;
     incar_LDAU := Some true;
     incar_lists :=
       {[ "LDAUU" := [PFloat 5.3; PInt 0];
          "LDAUJ" := [PInt 0; PInt 0];
          "LDAUL" := [PInt 2; PInt 0] ]} |}.

(** INCAR of a plain GGA run: no Hubbard tags at all. *)
Definition incar_GGA : Incar :=
  {| incar_ENCUT := Some (PInt 520);
     incar_NLEMDL := None;
     incar_LDAU := None;
     incar_lists := ∅ |}.

Definition step (es : list float) : IonicStep :=
  {| electronic_steps := Some (map (fun e => {| e_fr_energy := Some e |}) es) |}.

Definition calc (inc : Incar) (es : list float) : Calc :=
  {| calc_input := Some {| ci_parameters := Some ∅; ci_incar := Some inc |};
     calc_output := Some {| ionic_steps := Some [step es] |} |}.

Definition energies : list float := [(-10)%float; (-12)%float; (-12.5)%float].

Definition task_on (s : list string) (inc : Incar) (kp : option KpointsDict)
    (tgs : list string) : TaskDocument :=
  {| task_id := MPID "mp-19770";
     last_updated := 0;
     tags := tgs;
     input := {| is_parameters := ∅; potcar_spec := [];
                 is_hubbard := true; hubbards := {[ "Fe" := PFloat 5.3 ]} |};
     output := {| out_structure := Some s; out_energy := Some (-12.5)%float |};
     orig_inputs := {| oi_kpoints := kp; oi_incar := Some inc |};
     calcs_reversed := [calc inc energies] |}.

Definition task : Incar -> option KpointsDict -> list string -> TaskDocument :=
  task_on FeO.


Definition incar_U_OFe : Incar :=
  {| incar_ENCUT := Some (PInt 520);
     incar_NLEMDL := None;
     incar_LDAU := Some true;
     incar_lists :=
       {[ "LDAUU" := [PInt 0; PFloat 5.3];
          "LDAUJ" := [PInt 0; PInt 0];
          "LDAUL" := [PInt 0; PInt 2] ]} |}.

Definition grid000 : KpointsDict :=
  {| nkpoints := Some 0; kpoints := Some (Arr2 [[0; 0; 0]]) |}.

Definition grid444 : KpointsDict :=
  {| nkpoints := Some 0; kpoints := Some (Arr2 [[4; 4; 4]]) |}.

(** A reference input set: an automatic mesh [kpts] ([num_kpts] is 0
    for automatic meshes), the cutoff [encut], +U on Fe. *)
Definition reference (encut : pynum) (kpts : list (list Z)) : VaspInputSet :=
  {| vis_num_kpts := 0;
     vis_kpts := kpts;
     vis_incar :=
       {| incar_ENCUT := Some encut;
          incar_NLEMDL := None;
          incar_LDAU := Some true;
          incar_lists := incar_lists incar_U |};
     vis_symbol_set := FeO |}.

Definition input_sets (vis : VaspInputSet)
  : gmap string (option Structure -> Result VaspInputSet) :=
  {[ "Structure Optimization" := fun _ => Ok vis ]}.

Definition LDAU_fields : list string := ["LDAUU"; "LDAUJ"; "LDAUL"].

Definition validate (t : TaskDocument) (vis : VaspInputSet)
    (deprecated_tags : option (list string)) : Result ValidationDoc :=
  from_task_doc t 0.9%float (input_sets vis) LDAU_fields 1000%float deprecated_tags.

End Sample.

(** ** The values of [DeprecationMessage] *)

(** The first item of each member's tuple, its value. *)
Definition DeprecationMessage_value (m : DeprecationMessage) : string :=
  match m with
  | MANUAL => "M"
  | KPTS => "C001"
  | ENCUT => "C002"
  | FORCES => "C003"
  | CONVERGENCE => "E001"
  | MAX_SCF => "E002"
  | LDAU => "I001"
  end.

(** The second item, its docstring. *)
Definition DeprecationMessage_doc (m : DeprecationMessage) : string :=
  match m with
  | MANUAL => "manual deprecation"
  | KPTS => "Too few KPoints"
  | ENCUT => "ENCUT too low"
  | FORCES => "Forces too large"
  | CONVERGENCE => "Calculation did not converge"
  | MAX_SCF => "Max SCF gradient too large"
  | LDAU => "LDAU Parameters don't match the inputset"
  end.

(** The members in definition order. *)
Definition DeprecationMessage_members : list DeprecationMessage :=
  [MANUAL; KPTS; ENCUT; FORCES; CONVERGENCE; MAX_SCF; LDAU].

(** [DeprecationMessage(v)]: the member with value [v]; [ValueError] when
    there is none. *)
Definition DeprecationMessage_of_value (v : string) : Result DeprecationMessage :=
  match find (fun m => String.eqb (DeprecationMessage_value m) v)
             DeprecationMessage_members with
  | Some m => Ok m
  | None => Raise ValueError
  end.

(** ** [emmet-api/molecule_resources.py] *)

Module MoleculeResources.

(** The two ways the module fails at import: a [KeyError] from
    [os.environ[...]] and the [RuntimeError] it raises itself. *)
Inductive import_error : Type :=
  | EnvKeyError (key : string)
  | RuntimeError (message : string).

(** The arguments of [MongoURIStore(...)]. *)
Record MongoURIStore : Type := {
  uri : string;
  database : string;
  key : string;
  collection_name : string
}.

(** The resources, by the constructor that builds each from its store. *)
Inductive Resource : Type :=
  | task_resource (store : MongoURIStore)
  | task_deprecation_resource (store : MongoURIStore)
  | mol_assoc_resource (store : MongoURIStore)
  | find_molecule_assoc_resource (store : MongoURIStore)
  | molecules_resource (store : MongoURIStore)
  | find_molecule_resource (store : MongoURIStore)
  | charges_resource (store : MongoURIStore)
  | spins_resource (store : MongoURIStore)
  | bonding_resource (store : MongoURIStore)
  | orbitals_resource (store : MongoURIStore)
  | redox_resource (store : MongoURIStore)
  | thermo_resource (store : MongoURIStore)
  | vibration_resource (store : MongoURIStore)
  | summary_resource (store : MongoURIStore).

Definition resource_store (r : Resource) : MongoURIStore :=
  match r with
  | task_resource s | task_deprecation_resource s
  | mol_assoc_resource s | find_molecule_assoc_resource s
  | molecules_resource s | find_molecule_resource s
  | charges_resource s | spins_resource s | bonding_resource s
  | orbitals_resource s | redox_resource s | thermo_resource s
  | vibration_resource s | summary_resource s => s
  end.

(** [s.startswith(prefix)] *)
Fixpoint startswith (s prefix : string) : bool :=
  match prefix with
  | EmptyString => true
  | String p prefix' =>
      match s with
      | EmptyString => false
      | String c s' => Ascii.eqb c p && startswith s' prefix'
      end
  end.

(** [s[n:]] *)
Fixpoint string_from (n : nat) (s : string) : string :=
  match n, s with
  | O, _ => s
  | S n', String _ s' => string_from n' s'
  | S _, EmptyString => EmptyString
  end.

(** [s.split(sep, 1)] for a non-empty [sep]: cut at the first occurrence
    of [sep], or the whole string alone when there is none. *)
Fixpoint split_1 (sep s : string) : list string :=
  if startswith s sep then [EmptyString; string_from (String.length sep) s]
  else
    match s with
    | EmptyString => [EmptyString]
    | String c s' =>
        match split_1 sep s' with
        | head :: rest => String c head :: rest
        | [] => [String c EmptyString]
        end
    end.

(** The rewriting of [db_uri]: prepend [mongodb+srv://] when the URI
    names no scheme. *)
Definition with_scheme (db_uri : string) : string :=
  if (length (split_1 "://" db_uri) <? 2)%nat
  then String.append "mongodb+srv://" db_uri
  else db_uri.

Definition store (db_uri key collection_name : string) : MongoURIStore :=
  {| uri := db_uri; database := "mp_molecules"; key := key;
     collection_name := collection_name |}.

(** The module body, as a function of [os.environ]: the final value of
    [resources].  ([MAPISettings()] and the resource constructors are
    taken to succeed.) *)
Definition resources (environ : gmap string string)
  : import_error + gmap string (list Resource) :=
  let db_uri := environ !! "MPCONTRIBS_MONGO_HOST" in
  match environ !! "MAPI_DB_NAME_SUFFIX" with
  | None => inl (EnvKeyError "MAPI_DB_NAME_SUFFIX")
  | Some db_suffix =>
      match db_uri with
      | Some (String c u) =>
          let db_uri := with_scheme (String c u) in
          let task_store := store db_uri "task_id" "mpcules_tasks" in
          let assoc_store := store db_uri "molecule_id" "mpcules_assoc" in
          let mol_store := store db_uri "molecule_id" "mpcules_molecules" in
          let charges_store := store db_uri "property_id" "mpcules_charges" in
          let spins_store := store db_uri "property_id" "mpcules_spins" in
          let bonds_store := store db_uri "property_id" "mpcules_bonds" in
          let orbitals_store := store db_uri "property_id" "mpcules_orbitals" in
          let redox_store := store db_uri "property_id" "mpcules_redox" in
          let thermo_store := store db_uri "property_id" "mpcules_thermo" in
          let vibes_store := store db_uri "property_id" "mpcules_vibes" in
          let summary_store := store db_uri "molecule_id" "mpcules_summary" in
          let mp_molecules_resources :=
            [task_resource task_store; task_deprecation_resource task_store]
            ++ [mol_assoc_resource assoc_store;
                find_molecule_assoc_resource assoc_store]
            ++ [molecules_resource mol_store; find_molecule_resource mol_store]
            ++ [charges_resource charges_store]
            ++ [spins_resource spins_store]
            ++ [bonding_resource bonds_store]
            ++ [orbitals_resource orbitals_store]
            ++ [redox_resource redox_store]
            ++ [thermo_resource thermo_store]
            ++ [vibration_resource vibes_store]
            ++ [summary_resource summary_store] in
          inr (<["molecules" := mp_molecules_resources]> ∅)
      | _ => inl (RuntimeError "Must specify MongoDB URI containing inputs.")
      end
  end.

End MoleculeResources.

(** ** Further sample documents *)

Module MoreSample.
Import Sample.
#[local] Existing Instance collaborators.

(** A reference input set that does not ask for LDAU. *)
Definition reference_GGA : VaspInputSet :=
  {| vis_num_kpts := 0;
     vis_kpts := [[4; 4; 4]];
     vis_incar :=
       {| incar_ENCUT := Some (PInt 520); incar_NLEMDL := None;
          incar_LDAU := Some false; incar_lists := ∅ |};
     vis_symbol_set := FeO |}.

(** An INCAR that gives no ENCUT. *)
Definition incar_no_ENCUT : Incar :=
  {| incar_ENCUT := None; incar_NLEMDL := None; incar_LDAU := Some true;
     incar_lists := incar_lists incar_U |}.

(** The same run with [NLEMDL] set to 1. *)
Definition incar_skip_1 : Incar :=
  {| incar_ENCUT := Some (PInt 520); incar_NLEMDL := Some 1;
     incar_LDAU := Some true; incar_lists := incar_lists incar_U |}.

(** The same run with a 400 eV cutoff. *)
Definition incar_400 : Incar :=
  {| incar_ENCUT := Some (PInt 400); incar_NLEMDL := None;
     incar_LDAU := Some true; incar_lists := incar_lists incar_U |}.

(** A run whose energy rises from one electronic step to the next. *)
Definition rising : list float := [(-12)%float; (-10)%float; (-9)%float].

Definition task_rising : TaskDocument :=
  with_calcs_reversed (task incar_U (Some grid444) []) [calc incar_U rising].





(** An environment that names a host without a scheme. *)
Definition environ : gmap string string :=
  {[ "MPCONTRIBS_MONGO_HOST" := "cluster0.example.net";
     "MAPI_DB_NAME_SUFFIX" := "2021" ]}.

End MoreSample.

(** * Properties *)

(** ** The numeric layer on small inputs *)

Example Z2float_one : Z2float 1 = 1%float.
Proof. reflexivity. Qed.

Example gradient_three :
  np_gradient [1%float; 2%float; 4%float] = Ok [1%float; 1.5%float; 2%float].
Proof. reflexivity. Qed.

Example gradient_two :
  np_gradient [1%float; 4%float] = Ok [3%float; 3%float].
Proof. reflexivity. Qed.

Example gradient_one : np_gradient [1%float] = Raise ValueError.
Proof. reflexivity. Qed.

Example max_with_nan :
  (r ← np_max [1%float; nan; 3%float]; Ok (PrimFloat.is_nan r)) = Ok true.
Proof. reflexivity. Qed.

Example slice_negative : slice_from (Some (-2)) [1; 2; 3; 4] = [3; 4].
Proof. reflexivity. Qed.

Example slice_past_end : slice_from (Some 7) [1; 2; 3; 4] = [].
Proof. reflexivity. Qed.

Example eq_int_float : pynum_eq (PInt 2) (PFloat 2%float) = true.
Proof. reflexivity. Qed.

Example neq_half : pynum_eq (PInt 2) (PFloat 2.5%float) = false.
Proof. reflexivity. Qed.

Example prod_grid : np_prod (Arr2 [[4; 4; 4]]) = 64.
Proof. reflexivity. Qed.

Example int_truediv_rounds_once :
  int_truediv (2 ^ 53 + 1) 3 = Ok 3002399751580331%float.
Proof. vm_compute. reflexivity. Qed.

Example int_truediv_half : int_truediv 32 64 = Ok 0.5%float.
Proof. vm_compute. reflexivity. Qed.

Example int_truediv_negative_zero :
  int_truediv 0 (-5) = Ok (-0)%float.
Proof. vm_compute. reflexivity. Qed.

Example int_truediv_too_large :
  int_truediv (10 ^ 400) 1 = Raise OverflowError.
Proof. vm_compute. reflexivity. Qed.

Example int_truediv_large_operands :
  int_truediv (10 ^ 400) (10 ^ 399) = Ok 10%float.
Proof. vm_compute. reflexivity. Qed.

Example int_truediv_by_zero : int_truediv 7 0 = Raise ZeroDivisionError.
Proof. reflexivity. Qed.

Example count_by_numpy_zero :
  count_truediv (PyInt 8) (NpInt64 0) = Ok infinity.
Proof. reflexivity. Qed.

Example float_by_zero :
  float_truediv 520 (PFloat (-0)%float) = Raise ZeroDivisionError.
Proof. reflexivity. Qed.

Example zip_stops_at_shortest :
  zip_rows ["Fe"; "O"] [[PInt 1; PInt 2]; [PInt 3]] = [("Fe", [PInt 1; PInt 3])].
Proof. reflexivity. Qed.

Example dict_overwrite_keeps_place :
  dict_of_rows [("Fe", 1); ("O", 2); ("Fe", 3)] = [("Fe", 3); ("O", 2)].
Proof. reflexivity. Qed.

(** The search stops at the first mismatch; a missing reference element
    met earlier raises. *)
Example any_mismatch_order :
  any_mismatch [("Fe", [PInt 9])] [("Fe", [PInt 1]); ("O", [PInt 2])] = Ok true ∧
  any_mismatch [("Fe", [PInt 9])] [("O", [PInt 2]); ("Fe", [PInt 1])]
    = Raise (KeyError "O").
Proof. by split. Qed.

(** ** The result monad *)

Lemma bind_Ok {A B : Type} (r : Result A) (k : A -> Result B) (b : B) :
  r ≫= k = Ok b ↔ ∃ a, r = Ok a ∧ k a = Ok b.
Proof.
  destruct r as [a|e]; simpl; split.
  - intros H. by exists a.
  - intros (a' & Ha & H). by injection Ha as <-.
  - discriminate.
  - by intros (a' & [=] & _).
Qed.

Lemma bind_Raise {A B : Type} (r : Result A) (k : A -> Result B) (e : exn) :
  r = Raise e → r ≫= k = Raise e.
Proof. by intros ->. Qed.

(** Invert a hypothesis [r ≫= k = Ok b] into its two steps. *)
Ltac inv_bind H :=
  let a := fresh "a" in
  let Ha := fresh "H" a in
  apply bind_Ok in H as (a & Ha & H).

Lemma elem_of_flag (b : bool) (m m' : DeprecationMessage) :
  m' ∈ flag b m ↔ b = true ∧ m' = m.
Proof.
  destruct b; simpl.
  - rewrite list_elem_of_singleton. naive_solver.
  - split; [intros H; by apply elem_of_nil in H | by intros [? _]].
Qed.

(** ** Order facts on doubles *)

Lemma SFltb_irrefl (x : spec_float) : SFltb x x = false.
Proof.
  unfold SFltb, SFcompare.
  destruct x as [[]|[]| |[] m e]; try reflexivity;
    rewrite Z.compare_refl;
    change (Pos.compare_cont Eq m m) with (Pos.compare m m);
    by rewrite Pos.compare_refl.
Qed.

Ltac cmp_cases :=
  repeat match goal with
  | |- context [Z.compare ?a ?b] => destruct (Z.compare_spec a b)
  | H : context [Z.compare ?a ?b] |- _ => destruct (Z.compare_spec a b)
  | |- context [Pos.compare ?a ?b] => destruct (Pos.compare_spec a b)
  | H : context [Pos.compare ?a ?b] |- _ => destruct (Pos.compare_spec a b)
  end.

Lemma SFltb_trans (x y z : spec_float) :
  SFltb x y = true → SFltb y z = true → SFltb x z = true.
Proof.
  unfold SFltb, SFcompare.
  destruct x as [[]|[]| |[] m1 e1], y as [[]|[]| |[] m2 e2],
           z as [[]|[]| |[] m3 e3];
    try reflexivity; try discriminate;
    change (Pos.compare_cont Eq ?a ?b) with (Pos.compare a b) in *;
    intros H1 H2; cmp_cases; simpl in *;
    try reflexivity; try discriminate; try lia.
Qed.

Lemma ltb_irrefl (x : float) : PrimFloat.ltb x x = false.
Proof. rewrite FloatAxioms.ltb_spec. apply SFltb_irrefl. Qed.

Lemma ltb_trans (x y z : float) :
  PrimFloat.ltb x y = true → PrimFloat.ltb y z = true → PrimFloat.ltb x z = true.
Proof. rewrite !FloatAxioms.ltb_spec. apply SFltb_trans. Qed.

Lemma is_nan_Prim2SF (x : float) :
  PrimFloat.is_nan x = true ↔ Prim2SF x = S754_nan.
Proof.
  unfold PrimFloat.is_nan. rewrite FloatAxioms.eqb_spec. unfold SFeqb, SFcompare.
  destruct (Prim2SF x) as [[]|[]| |[] m e]; simpl; try done;
    rewrite Z.compare_refl;
    change (Pos.compare_cont Eq m m) with (Pos.compare m m);
    by rewrite Pos.compare_refl.
Qed.

Lemma ltb_nan_l (x y : float) :
  PrimFloat.is_nan x = true → PrimFloat.ltb x y = false.
Proof. intros H%is_nan_Prim2SF. rewrite FloatAxioms.ltb_spec, H. done. Qed.

(** [np.maximum a y] is not below [y], nor below anything [a] was not
    below. *)
Lemma np_maximum_r (a y : float) : PrimFloat.ltb (np_maximum a y) y = false.
Proof.
  unfold np_maximum.
  destruct (is_nan a) eqn:Ha; [by apply ltb_nan_l|].
  destruct (is_nan y) eqn:Hy; [by apply ltb_nan_l|].
  destruct (PrimFloat.ltb a y) eqn:Hlt; [apply ltb_irrefl|done].
Qed.

Lemma np_maximum_l (a y x : float) :
  PrimFloat.ltb a x = false → PrimFloat.ltb (np_maximum a y) x = false.
Proof.
  intros Hax. unfold np_maximum.
  destruct (is_nan a) eqn:Ha; [done|].
  destruct (is_nan y) eqn:Hy; [by apply ltb_nan_l|].
  destruct (PrimFloat.ltb a y) eqn:Hlt; [|done].
  destruct (PrimFloat.ltb y x) eqn:Hyx; [|done].
  by rewrite (ltb_trans _ _ _ Hlt Hyx) in Hax.
Qed.

Lemma fold_np_maximum_upper (l : list float) (a x : float) :
  PrimFloat.ltb a x = false ∨ x ∈ l →
  PrimFloat.ltb (fold_left np_maximum l a) x = false.
Proof.
  revert a. induction l as [|y l IH]; intros a; simpl.
  - intros [H|H]; [done | by apply elem_of_nil in H].
  - intros [H|[->|H]%elem_of_cons]; apply IH; auto using np_maximum_l, np_maximum_r.
Qed.

(** Nothing in the array exceeds its [np.max]. *)
Lemma np_max_upper (l : list float) (m x : float) :
  np_max l = Ok m → x ∈ l → PrimFloat.ltb m x = false.
Proof.
  destruct l as [|a l]; [done|]. intros [= <-] [->|H]%elem_of_cons.
  - apply fold_np_maximum_upper. left. apply ltb_irrefl.
  - apply fold_np_maximum_upper. by right.
Qed.

Section Validation.
Context `{C : Collaborators}.

Implicit Types (task_doc : TaskDocument) (doc : ValidationDoc).
Implicit Types (input_sets : gmap string (option Structure -> Result VaspInputSet)).

(** ** Each check, from its result *)

Lemma flag_app (b : bool) (m : DeprecationMessage) (reasons : list DeprecationMessage) :
  (if b then reasons ++ [m] else reasons) = reasons ++ flag b m.
Proof. destruct b; simpl; by rewrite ?app_nil_r. Qed.

Lemma check_kpts_Ok vis inputs tol reasons data st :
  check_kpts vis inputs tol (reasons, data) = Ok st →
  ∃ vnk ratio,
    valid_num_kpts vis = Ok vnk ∧
    count_truediv (num_kpts inputs) vnk = Ok ratio ∧
    st = (reasons ++ flag (PrimFloat.ltb ratio tol) KPTS,
          <["kpts_ratio" := ratio]> data).
Proof.
  unfold check_kpts. intros H.
  inv_bind H. inv_bind H. injection H as <-.
  eexists _, _. split_and!; [done..|]. by rewrite flag_app.
Qed.

Lemma check_encut_Ok vis inputs reasons data st :
  check_encut vis inputs (reasons, data) = Ok st →
  ∃ valid_encut f ratio,
    incar_ENCUT (vis_incar vis) = Some valid_encut ∧
    py_float (incar_ENCUT (inputs_incar inputs)) = Ok f ∧
    float_truediv f valid_encut = Ok ratio ∧
    st = (reasons ++ flag (PrimFloat.ltb ratio 1) ENCUT,
          <["encut_ratio" := ratio]> data).
Proof.
  unfold check_encut. intros H.
  inv_bind H. inv_bind H. inv_bind H. injection H as <-.
  destruct (incar_ENCUT (vis_incar vis)) as [ve|] eqn:Hve; [|done].
  simpl in *. simplify_eq.
  eexists _, _, _. split_and!; [done..|]. by rewrite flag_app.
Qed.

(** The Hubbard-U check only adds its own flag, decided by the
    comparison of the two dictionaries when the reference asks for it. *)
Lemma check_ldau_Ok structure vis inputs fields reasons data st :
  check_ldau structure vis inputs fields (reasons, data) = Ok st →
  ∃ b,
    st = (reasons ++ flag b LDAU, data) ∧
    if default false (incar_LDAU (vis_incar vis)) then
      ∃ s input_set_rows,
        structure = Some s ∧
        input_set_ldau_rows vis fields = Ok input_set_rows ∧
        ldau_mismatch input_set_rows (input_ldau_rows s inputs fields) = Ok b
    else b = false.
Proof.
  unfold check_ldau. intros H.
  destruct (default false (incar_LDAU (vis_incar vis))).
  - inv_bind H. inv_bind H. inv_bind H. injection H as <-.
    destruct structure as [s|]; [|done]. simpl in *. simplify_eq.
    eexists. split; [by rewrite flag_app|]. by eexists _, _.
  - injection H as <-. exists false. simpl. by rewrite app_nil_r.
Qed.

Lemma check_scf_Ok task_doc inputs thr reasons data st :
  check_scf task_doc inputs thr (reasons, data) = Ok st →
  ∃ energies max_gradient,
    scf_energies task_doc = Ok energies ∧
    max_scf_gradient (incar_NLEMDL (inputs_incar inputs)) energies = Ok max_gradient ∧
    st = (reasons ++ flag (PrimFloat.ltb thr max_gradient) MAX_SCF,
          <["max_gradient" := max_gradient]> data).
Proof.
  unfold check_scf. intros H.
  inv_bind H. inv_bind H. injection H as <-.
  eexists _, _. split_and!; [done..|]. by rewrite flag_app.
Qed.

Lemma numeric_checks_Ok task_doc vis tol fields thr st :
  numeric_checks task_doc vis tol fields thr ([], ∅) = Ok st →
  numeric_outcome task_doc vis tol fields thr st.
Proof.
  unfold numeric_checks. intros H.
  inv_bind H. apply check_kpts_Ok in Ha as (vnk & kr & Hvnk & Hkr & ->).
  inv_bind H. apply check_encut_Ok in Ha as (ve & f & er & Hve & Hf & Her & ->).
  inv_bind H. apply check_ldau_Ok in Ha as (bl & -> & Hbl).
  apply check_scf_Ok in H as (es & mg & Hes & Hmg & ->).
  simpl. rewrite <- !app_assoc. by econstructor.
Qed.

(** Conversely, these values make the four checks succeed with exactly
    that state. *)
Lemma numeric_outcome_checks task_doc vis tol fields thr st :
  numeric_outcome task_doc vis tol fields thr st →
  numeric_checks task_doc vis tol fields thr ([], ∅) = Ok st.
Proof.
  intros [vnk kr ve f er bl es mg Hvnk Hkr Hve Hf Her Hbl Hes Hmg].
  unfold numeric_checks, check_kpts, check_encut, check_ldau, check_scf.
  rewrite Hvnk. cbn [mbind Result_bind]. rewrite Hkr. cbn [mbind Result_bind].
  rewrite Hve. cbn [mbind Result_bind subscript]. rewrite Hf.
  cbn [mbind Result_bind]. rewrite Her. cbn [mbind Result_bind].
  rewrite !flag_app. simpl app.
  destruct (default false (incar_LDAU (vis_incar vis))).
  - destruct Hbl as (s & rr & -> & -> & Hbl). cbn [mbind Result_bind].
    rewrite Hbl. cbn [mbind Result_bind]. rewrite Hes. cbn [mbind Result_bind].
    rewrite Hmg. cbn [mbind Result_bind]. rewrite !flag_app.
    by rewrite <- !app_assoc.
  - subst bl. rewrite Hes. cbn [mbind Result_bind].
    rewrite Hmg. cbn [mbind Result_bind]. rewrite !flag_app. simpl flag.
    by rewrite <- !app_assoc.
Qed.

(** ** The whole function, from its result *)

Lemma reference_checks_Ok task_doc tol input_sets fields thr st :
  reference_checks task_doc tol input_sets fields thr = Ok st →
  match input_sets !! task_type task_doc with
  | Some make_input_set =>
      ∃ vis, make_input_set (out_structure (output task_doc)) = Ok vis ∧
             numeric_outcome task_doc vis tol fields thr st
  | None => st = ([], ∅)
  end.
Proof.
  unfold reference_checks. intros H.
  destruct (input_sets !! task_type task_doc) as [mk|].
  - inv_bind H. exists a. split; [done|]. by apply numeric_checks_Ok.
  - by injection H as <-.
Qed.

Lemma from_task_doc_Ok task_doc tol input_sets fields thr dep doc :
  from_task_doc task_doc tol input_sets fields thr dep = Ok doc →
  ∃ st rt,
    reference_checks task_doc tol input_sets fields thr = Ok st ∧
    run_type task_doc = Ok rt ∧
    reasons doc =
      st.1 ++ flag (bool_decide (manual_tags task_doc (default [] dep) ≠ ∅)) MANUAL ∧
    data doc = st.2 ∧
    valid doc = Nat.eqb (length (reasons doc)) 0 ∧
    vd_task_id doc = task_id task_doc ∧
    vd_task_type doc = task_type task_doc ∧
    vd_run_type doc = rt.
Proof.
  unfold from_task_doc. intros H.
  inv_bind H. inv_bind H. injection H as <-. simpl.
  eexists _, _. split_and!; try done. by rewrite flag_app.
Qed.

(** The numeric checks raise only their own four codes. *)
Lemma numeric_outcome_reasons task_doc vis tol fields thr st m :
  numeric_outcome task_doc vis tol fields thr st →
  m ∈ st.1 → m ∈ [KPTS; ENCUT; LDAU; MAX_SCF].
Proof.
  intros [] Hm. simpl in Hm.
  rewrite !elem_of_app, !elem_of_flag in Hm.
  destruct Hm as [[_ ->]|[[_ ->]|[[_ ->]|[_ ->]]]]; set_solver.
Qed.

Lemma reference_checks_reasons task_doc tol input_sets fields thr st m :
  reference_checks task_doc tol input_sets fields thr = Ok st →
  m ∈ st.1 → m ∈ [KPTS; ENCUT; LDAU; MAX_SCF].
Proof.
  intros H%reference_checks_Ok.
  destruct (input_sets !! task_type task_doc).
  - destruct H as (vis & _ & H). by eapply numeric_outcome_reasons.
  - subst st. simpl. by intros ?%elem_of_nil.
Qed.


(** ** Validity and the reasons list *)

(** C1. Every validation document that [from_task_doc] returns has
    [valid] true exactly when its [reasons] list is empty. *)
Theorem valid_iff_no_reasons task_doc tol input_sets fields thr dep doc :
  from_task_doc task_doc tol input_sets fields thr dep = Ok doc →
  (valid doc = true ↔ reasons doc = []).
Proof.
  intros (st & rt & _ & _ & _ & _ & -> & _)%from_task_doc_Ok.
  rewrite Nat.eqb_eq. apply length_zero_iff_nil.
Qed.


(** C6. When the task type has no reference input set, only the MANUAL
    check runs: the call returns as soon as the task has a calculation
    step for [run_type], and the returned document has no KPTS, ENCUT,
    LDAU or MAX_SCF flag, an empty [data], and MANUAL alone when a tag is
    present. *)
Theorem no_reference_only_manual task_doc tol input_sets fields thr dep :
  input_sets !! task_type task_doc = None →
  (calcs_reversed task_doc ≠ [] →
     ∃ doc, from_task_doc task_doc tol input_sets fields thr dep = Ok doc) ∧
  ∀ doc, from_task_doc task_doc tol input_sets fields thr dep = Ok doc →
    (KPTS ∉ reasons doc) ∧ (ENCUT ∉ reasons doc) ∧
    (LDAU ∉ reasons doc) ∧ (MAX_SCF ∉ reasons doc) ∧
    data doc = ∅ ∧
    reasons doc =
      flag (bool_decide (manual_tags task_doc (default [] dep) ≠ ∅)) MANUAL.
Proof.
  intros Hnone. split.
  - intros Hcalcs. unfold from_task_doc, reference_checks, run_type.
    rewrite Hnone. destruct (calcs_reversed task_doc) as [|c rest]; [done|].
    simpl. by eexists.
  - intros doc (st & rt & Hst & _ & Hr & Hd & _)%from_task_doc_Ok.
    apply reference_checks_Ok in Hst. rewrite Hnone in Hst. subst st.
    simpl in *. rewrite Hr, Hd.
    split_and!; try done;
      rewrite elem_of_flag; by intros [_ [=]].
Qed.

(** A returned document for a task type with a reference input set:
    the reference, the outcome of the numeric checks, and how the
    document's [reasons] and [data] are made of it. *)
Lemma from_task_doc_reference task_doc tol input_sets fields thr dep mk doc :
  input_sets !! task_type task_doc = Some mk →
  from_task_doc task_doc tol input_sets fields thr dep = Ok doc →
  ∃ vis st,
    mk (out_structure (output task_doc)) = Ok vis ∧
    numeric_outcome task_doc vis tol fields thr st ∧
    reasons doc =
      st.1 ++ flag (bool_decide (manual_tags task_doc (default [] dep) ≠ ∅)) MANUAL ∧
    data doc = st.2.
Proof.
  intros Hmk (st & rt & Hst & _ & Hr & Hd & _)%from_task_doc_Ok.
  apply reference_checks_Ok in Hst. rewrite Hmk in Hst.
  destruct Hst as (vis & Hvis & Hout). by exists vis, st.
Qed.

(** ** The energy cutoff check *)

(** [float(x)] returns the double the number stands for. *)
Lemma py_float_Ok (x : option pynum) (f : float) :
  py_float x = Ok f → ∃ n, x = Some n ∧ f = pynum_float n.
Proof.
  destruct x as [[z|g]|]; simpl; [|by intros [= <-]; eexists|done].
  destruct (is_inf (Z2float z)); [done|]. intros [= <-]. by eexists.
Qed.

(** A division that returns had a non-zero divisor and returned the
    binary64 quotient of the numerator by the divisor's double. *)
Lemma float_truediv_Ok (a : float) (b : pynum) (r : float) :
  float_truediv a b = Ok r →
  pynum_is_zero b = false ∧ r = PrimFloat.div a (pynum_float b).
Proof.
  destruct b as [z|g]; simpl.
  - destruct (z =? 0); [done|].
    destruct (is_inf (Z2float z)); [done|]. by intros [= <-].
  - destruct (PrimFloat.eqb g 0); [done|]. by intros [= <-].
Qed.

(** C7. With a reference input set, a returned document stores as
    [encut_ratio] the ratio of the observed to the reference cutoff: the
    binary64 quotient of the task's ENCUT, as a double, by the reference
    ENCUT, as a double, the reference being non-zero.  ENCUT is among the
    reasons exactly when that ratio is strictly below 1; a ratio of
    exactly 1.0 gives no ENCUT flag. *)
Theorem encut_flag_iff_ratio_below_one
    task_doc tol input_sets fields thr dep mk doc :
  input_sets !! task_type task_doc = Some mk →
  from_task_doc task_doc tol input_sets fields thr dep = Ok doc →
  ∃ vis valid_encut observed_encut encut ratio,
    mk (out_structure (output task_doc)) = Ok vis ∧
    incar_ENCUT (vis_incar vis) = Some valid_encut ∧
    incar_ENCUT (inputs_incar (orig_inputs task_doc)) = Some observed_encut ∧
    encut = pynum_float observed_encut ∧
    pynum_is_zero valid_encut = false ∧
    ratio = PrimFloat.div encut (pynum_float valid_encut) ∧
    py_float (incar_ENCUT (inputs_incar (orig_inputs task_doc))) = Ok encut ∧
    float_truediv encut valid_encut = Ok ratio ∧
    data doc !! "encut_ratio" = Some ratio ∧
    (ENCUT ∈ reasons doc ↔ PrimFloat.ltb ratio 1 = true) ∧
    (ratio = 1%float → ENCUT ∉ reasons doc).
Proof.
  intros Hmk Hdoc.
  destruct (from_task_doc_reference _ _ _ _ _ _ _ _ Hmk Hdoc)
    as (vis & st & Hvis & Hout & Hr & Hd).
  destruct Hout as [vnk kr ve f er bl es mg _ _ Hve Hf Her _ _ _].
  simpl in Hr, Hd.
  assert (ENCUT ∈ reasons doc ↔ PrimFloat.ltb er 1 = true) as Hiff.
  { rewrite Hr, !elem_of_app, !elem_of_flag. naive_solver. }
  destruct (py_float_Ok _ _ Hf) as (n & Hn & Hfn).
  destruct (float_truediv_Ok _ _ _ Her) as (Hnz & Hq).
  exists vis, ve, n, f, er. split_and!; try done.
  - rewrite Hd. by simplify_map_eq.
  - intros -> Hin%Hiff. by vm_compute in Hin.
Qed.

(** ** The SCF gradient check *)

(** [l[skip:]] always drops a prefix: [skip] leading items when [skip]
    is a natural number, none when it is absent, all but the last
    [-skip] when it is negative. *)
Lemma slice_from_drop {A : Type} (skip : option Z) (l : list A) :
  slice_from skip l =
  drop (match skip with
        | None => 0%nat
        | Some k =>
            if 0 <=? k then Z.to_nat k
            else Z.to_nat (Z.max 0 (Z.of_nat (length l) + k))
        end) l.
Proof. destruct skip as [k|]; simpl; [by destruct (0 <=? k)|done]. Qed.

(** [np.max] returns one of the items. *)
Lemma fold_np_maximum_elem (l : list float) (a : float) :
  fold_left np_maximum l a ∈ a :: l.
Proof.
  revert a. induction l as [|x l IH]; intros a; simpl; [set_solver|].
  specialize (IH (np_maximum a x)).
  apply elem_of_cons in IH as [->|IH]; [|set_solver].
  unfold np_maximum.
  destruct (is_nan a); [set_solver|].
  destruct (is_nan x); [set_solver|].
  destruct (PrimFloat.ltb a x); set_solver.
Qed.

Lemma np_max_elem (l : list float) (m : float) :
  np_max l = Ok m → m ∈ l.
Proof.
  destruct l as [|a l]; [done|]. intros [= <-]. apply fold_np_maximum_elem.
Qed.

(** The energies read by the check are those of the electronic steps of
    the last ionic step of [calcs_reversed[0]]. *)
Lemma scf_energies_Ok task_doc energies :
  scf_energies task_doc = Ok energies →
  ∃ c rest out steps step esteps,
    calcs_reversed task_doc = c :: rest ∧
    calc_output c = Some out ∧
    ionic_steps out = Some steps ∧
    last steps = Some step ∧
    electronic_steps step = Some esteps ∧
    Forall2 (fun d e => e_fr_energy d = Some e) esteps energies.
Proof.
  unfold scf_energies. intros H.
  inv_bind H. inv_bind H. inv_bind H. inv_bind H. inv_bind H.
  destruct (calcs_reversed task_doc) as [|c rest] eqn:Hc; [done|].
  injection Ha as <-.
  destruct (calc_output c) as [out|] eqn:Ho; [|done]. injection Ha0 as <-.
  destruct (ionic_steps out) as [steps|] eqn:Hi; [|done]. injection Ha1 as <-.
  unfold last_item in Ha2.
  destruct (last steps) as [step|] eqn:Hlast; [|done]. injection Ha2 as <-.
  destruct (electronic_steps step) as [esteps|] eqn:Hes; [|done].
  injection Ha3 as <-.
  exists c, rest, out, steps, step, esteps. split_and!; try done.
  clear Hes Hlast Hc Ho Hi. revert energies H.
  induction esteps as [|d esteps IH]; intros energies H; simpl in H.
  - injection H as <-. constructor.
  - inv_bind H. inv_bind H. injection H as <-.
    destruct (e_fr_energy d) as [e|] eqn:He; [|done]. injection Ha as <-.
    constructor; [done|]. by apply IH.
Qed.

Lemma central_length (l : list float) :
  length (central l) = (length l - 2)%nat.
Proof.
  induction l as [|a l IH]; [done|].
  destruct l as [|b [|c l]]; [done..|].
  change (central (a :: b :: c :: l))
    with (PrimFloat.div (PrimFloat.sub c a) (PrimFloat.mul 2 1)
            :: central (b :: c :: l)).
  cbn [length] in *. rewrite IH. lia.
Qed.

Lemma backward_edge_length (l : list float) (a b : float) :
  length (backward_edge (a :: b :: l)) = 1%nat.
Proof.
  revert a b. induction l as [|c l IH]; intros a b; [done|].
  change (backward_edge (a :: b :: c :: l)) with (backward_edge (b :: c :: l)).
  apply IH.
Qed.

(** [np.gradient] needs two samples and returns as many values as it
    was given. *)
Lemma np_gradient_length (l g : list float) :
  np_gradient l = Ok g → (2 ≤ length l)%nat ∧ length g = length l.
Proof.
  destruct l as [|a [|b l]]; [done..|]. intros H.
  assert (g = PrimFloat.div (PrimFloat.sub b a) 1
                :: central (a :: b :: l) ++ backward_edge (a :: b :: l)) as ->.
  { symmetry. exact (f_equal (fun r => match r with Ok x => x | Raise _ => g end) H). }
  split; [cbn [length]; lia|].
  rewrite !length_cons, length_app, central_length, backward_edge_length.
  cbn [length]. lia.
Qed.

(** The central difference of the samples two apart. *)
Lemma central_lookup (l : list float) (i : nat) (a c : float) :
  l !! i = Some a → l !! (i + 2)%nat = Some c →
  central l !! i =
  Some (PrimFloat.div (PrimFloat.sub c a) (PrimFloat.mul 2 1)).
Proof.
  revert i. induction l as [|x l IH]; intros i Ha Hc; [done|].
  destruct l as [|y [|z l]].
  - by destruct i.
  - by destruct i as [|[|i]].
  - change (central (x :: y :: z :: l))
      with (PrimFloat.div (PrimFloat.sub z x) (PrimFloat.mul 2 1)
              :: central (y :: z :: l)).
    destruct i as [|i].
    + simpl in Ha, Hc. injection Ha as <-. by injection Hc as <-.
    + simpl in Ha, Hc. simpl. by apply IH.
Qed.

(** The one-sided difference of the last two samples. *)
Lemma backward_edge_last (l : list float) (i : nat) (a b : float) :
  length l = S (S i) → l !! i = Some a → l !! S i = Some b →
  backward_edge l = [PrimFloat.div (PrimFloat.sub b a) 1].
Proof.
  revert i. induction l as [|x l IH]; intros i Hlen Ha Hb; [done|].
  destruct l as [|y [|z l]]; [done| |].
  - destruct i as [|i]; [|done].
    simpl in Ha, Hb. injection Ha as <-. by injection Hb as <-.
  - change (backward_edge (x :: y :: z :: l)) with (backward_edge (y :: z :: l)).
    destruct i as [|i]; [done|].
    apply (IH i); [simpl in Hlen |- *; lia|done..].
Qed.

(** The values of [np.gradient]: as many as samples; the forward
    difference of the first two samples first, the backward difference of
    the last two last, and in between half the difference of the two
    neighbours. *)
Lemma np_gradient_values (l g : list float) :
  np_gradient l = Ok g →
  length g = length l ∧
  (∀ a b, l !! 0%nat = Some a → l !! 1%nat = Some b →
     g !! 0%nat = Some (PrimFloat.div (PrimFloat.sub b a) 1)) ∧
  (∀ i a c, l !! i = Some a → l !! (i + 2)%nat = Some c →
     g !! (i + 1)%nat =
     Some (PrimFloat.div (PrimFloat.sub c a) (PrimFloat.mul 2 1))) ∧
  (∀ i a b, length l = S (S i) → l !! i = Some a → l !! S i = Some b →
     g !! S i = Some (PrimFloat.div (PrimFloat.sub b a) 1)).
Proof.
  intros H. pose proof (np_gradient_length _ _ H) as [_ Hlen].
  destruct l as [|x [|y l]]; [done..|].
  assert (g = PrimFloat.div (PrimFloat.sub y x) 1
                :: central (x :: y :: l) ++ backward_edge (x :: y :: l)) as ->.
  { symmetry. exact (f_equal (fun r => match r with Ok v => v | Raise _ => g end) H). }
  split_and!; [done| | |].
  - intros a b [= <-] [= <-]. done.
  - intros i a c Ha Hc. rewrite Nat.add_1_r, lookup_cons.
    apply lookup_app_l_Some. by apply central_lookup.
  - intros i a b Hl Ha Hb. rewrite lookup_cons.
    rewrite lookup_app_r by (rewrite central_length, Hl; lia).
    rewrite central_length, Hl, (backward_edge_last _ i a b) by done.
    by replace (i - (S (S i) - 2))%nat with 0%nat by lia.
Qed.

(** C5. With a reference input set, a returned document was computed as
    follows: the energies of the electronic steps of the last ionic step
    of the latest calculation are differentiated with [np.gradient], which
    gives one value per energy: the difference of the first two energies
    first, the difference of the last two last, and in between half the
    difference of the two neighbouring energies.  The leading part of the
    gradient selected by INCAR's [NLEMDL] is dropped, the [np.max] of what
    remains (one of the remaining gradients, which none of them exceeds)
    is stored as [max_gradient], and MAX_SCF is among the reasons exactly
    when that maximum exceeds [max_allowed_scf_gradient]. *)
Theorem max_scf_flag_iff_gradient_above_threshold
    task_doc tol input_sets fields thr dep mk doc :
  input_sets !! task_type task_doc = Some mk →
  from_task_doc task_doc tol input_sets fields thr dep = Ok doc →
  ∃ c rest out steps step esteps energies gradient max_gradient,
    calcs_reversed task_doc = c :: rest ∧
    calc_output c = Some out ∧
    ionic_steps out = Some steps ∧
    last steps = Some step ∧
    electronic_steps step = Some esteps ∧
    Forall2 (fun d e => e_fr_energy d = Some e) esteps energies ∧
    np_gradient energies = Ok gradient ∧
    length gradient = length energies ∧
    (∀ a b, energies !! 0%nat = Some a → energies !! 1%nat = Some b →
       gradient !! 0%nat = Some (PrimFloat.div (PrimFloat.sub b a) 1)) ∧
    (∀ i a b, energies !! i = Some a → energies !! (i + 2)%nat = Some b →
       gradient !! (i + 1)%nat =
       Some (PrimFloat.div (PrimFloat.sub b a) (PrimFloat.mul 2 1))) ∧
    (∀ i a b, length energies = S (S i) →
       energies !! i = Some a → energies !! S i = Some b →
       gradient !! S i = Some (PrimFloat.div (PrimFloat.sub b a) 1)) ∧
    let skip := incar_NLEMDL (inputs_incar (orig_inputs task_doc)) in
    let remaining := slice_from skip gradient in
    remaining =
      drop (match skip with
            | None => 0%nat
            | Some k =>
                if 0 <=? k then Z.to_nat k
                else Z.to_nat (Z.max 0 (Z.of_nat (length gradient) + k))
            end) gradient ∧
    np_max remaining = Ok max_gradient ∧
    max_gradient ∈ remaining ∧
    (∀ g, g ∈ remaining → PrimFloat.ltb max_gradient g = false) ∧
    data doc !! "max_gradient" = Some max_gradient ∧
    (MAX_SCF ∈ reasons doc ↔ PrimFloat.ltb thr max_gradient = true).
Proof.
  intros Hmk Hdoc.
  destruct (from_task_doc_reference _ _ _ _ _ _ _ _ Hmk Hdoc)
    as (vis & st & Hvis & Hout & Hr & Hd).
  destruct Hout as [vnk kr ve f er bl es mg _ _ _ _ _ _ Hes Hmg].
  simpl in Hr, Hd.
  apply scf_energies_Ok in Hes
    as (c & rest & out & steps & step & esteps & Hc & Ho & Hi & Hl & He & Hf2).
  unfold max_scf_gradient in Hmg. inv_bind Hmg.
  destruct (np_gradient_values _ _ Ha) as (Hlen & Hfirst & Hmid & Hlast).
  exists c, rest, out, steps, step, esteps, es, a, mg. cbv zeta.
  split_and!; try done.
  - apply slice_from_drop.
  - by apply np_max_elem.
  - intros g Hg. by eapply np_max_upper.
  - rewrite Hd. by simplify_map_eq.
  - rewrite Hr, !elem_of_app, !elem_of_flag. naive_solver.
Qed.

(** ** The k-point check on missing k-point data *)

(** C10. With a reference input set, when [orig_inputs] has no
    ["kpoints"] entry, or has one whose [nkpoints] is 0 (or absent) and
    that gives no grid, the observed count is the [np.prod] of
    [[1, 1, 1]], that is 1; the k-point check does not raise on that
    account; and a returned document stores 1 divided by the reference
    count as [kpts_ratio]. *)
Theorem missing_kpoints_count_is_one
    task_doc tol input_sets fields thr dep mk :
  input_sets !! task_type task_doc = Some mk →
  (oi_kpoints (orig_inputs task_doc) = None ∨
   ∃ kp, oi_kpoints (orig_inputs task_doc) = Some kp ∧
         default 0 (nkpoints kp) = 0 ∧ kpoints kp = None) →
  num_kpts (orig_inputs task_doc) = NpInt64 1 ∧
  (∀ vis vnk reasons data,
     valid_num_kpts vis = Ok vnk →
     let ratio := PrimFloat.div 1 (Z2float (count_val vnk)) in
     check_kpts vis (orig_inputs task_doc) tol (reasons, data) =
       Ok (reasons ++ flag (PrimFloat.ltb ratio tol) KPTS,
           <["kpts_ratio" := ratio]> data)) ∧
  (∀ doc,
     from_task_doc task_doc tol input_sets fields thr dep = Ok doc →
     ∃ vis vnk,
       mk (out_structure (output task_doc)) = Ok vis ∧
       valid_num_kpts vis = Ok vnk ∧
       data doc !! "kpts_ratio" =
         Some (PrimFloat.div 1 (Z2float (count_val vnk)))).
Proof.
  intros Hmk Hmissing.
  assert (num_kpts (orig_inputs task_doc) = NpInt64 1) as Hone.
  { unfold num_kpts.
    destruct Hmissing as [->|(kp & -> & Hn & Hg)]; simpl; [done|].
    by rewrite Hn, Hg. }
  assert (∀ vnk, count_truediv (NpInt64 1) vnk =
                 Ok (PrimFloat.div 1 (Z2float (count_val vnk)))) as Hdiv.
  { by intros []. }
  split_and!; [done| |].
  - intros vis vnk reasons data Hvnk. simpl.
    unfold check_kpts. rewrite Hvnk, Hone. cbn [mbind Result_bind].
    rewrite Hdiv. cbn [mbind Result_bind]. by rewrite flag_app.
  - intros doc Hdoc.
    destruct (from_task_doc_reference _ _ _ _ _ _ _ _ Hmk Hdoc)
      as (vis & st & Hvis & Hout & Hr & Hd).
    destruct Hout as [vnk kr ve f er bl es mg Hvnk Hkr _ _ _ _ _ _].
    simpl in Hd. rewrite Hone, Hdiv in Hkr. injection Hkr as <-.
    exists vis, vnk. split_and!; try done.
    rewrite Hd. by simplify_map_eq.
Qed.

(** ** Entries derived from a task document *)

(** [run_type] reads the first calculation step only. *)
Lemma run_type_head task_doc c rest :
  run_type (with_calcs_reversed task_doc (c :: rest)) =
  Ok (run_type_of (run_type_args c)).
Proof. reflexivity. Qed.

(** Reading back the dictionary of an entry to which ["structure"] was
    added: every key is found, the composition is recomputed from the
    structure. *)
Lemma from_dict_as_dict (e : ComputedEntry) (o : option Structure) :
  ComputedStructureEntry_from_dict (<["structure" := EVstructure o]> (as_dict e)) =
  match o with
  | Some s =>
      Ok {| cse_correction := correction e;
            cse_entry_id := entry_id e;
            cse_composition := composition s;
            cse_energy := energy e;
            cse_parameters := parameters e;
            cse_data := entry_data e;
            cse_structure := Some s |}
  | None => Raise AttributeError
  end.
Proof.
  unfold ComputedStructureEntry_from_dict, as_dict.
  rewrite lookup_insert_eq.
  destruct o as [s|]; [|reflexivity].
  cbn [mbind Result_bind].
  repeat (rewrite lookup_insert_ne by done).
  rewrite lookup_insert_eq. cbn [mbind Result_bind].
  repeat (rewrite lookup_insert_ne by done).
  rewrite lookup_insert_eq. cbn [mbind Result_bind].
  repeat (rewrite lookup_insert_ne by done).
  rewrite lookup_insert_eq. cbn [mbind Result_bind].
  repeat (rewrite lookup_insert_ne by done).
  rewrite lookup_insert_eq. cbn [mbind Result_bind].
  repeat (rewrite lookup_insert_ne by done).
  rewrite lookup_insert_eq. reflexivity.
Qed.

(** An entry that was built has the composition of the output
    structure. *)
Lemma entry_Ok task_doc e :
  entry task_doc = Ok e →
  ∃ s rt, out_structure (output task_doc) = Some s ∧
          run_type task_doc = Ok rt ∧
          entry_composition e = composition s ∧
          ep_run_type (parameters e) = rt.
Proof.
  unfold entry. intros H.
  destruct (out_structure (output task_doc)) as [s|]; [|done].
  cbn [mbind Result_bind] in H.
  destruct (run_type task_doc) as [rt|]; [|done].
  cbn [mbind Result_bind] in H. injection H as <-.
  by exists s, rt.
Qed.

(** C8. The derived [entry] and [structure_entry] depend on the
    calculation history only through its first element: replacing the
    steps behind [calcs_reversed[0]] by any others changes neither, and
    the [run_type] they record is the one computed from
    [calcs_reversed[0]]. *)
Theorem entry_reflects_latest_step task_doc c rest rest' :
  entry (with_calcs_reversed task_doc (c :: rest)) =
    entry (with_calcs_reversed task_doc (c :: rest')) ∧
  structure_entry (with_calcs_reversed task_doc (c :: rest)) =
    structure_entry (with_calcs_reversed task_doc (c :: rest')) ∧
  (∀ e, entry (with_calcs_reversed task_doc (c :: rest)) = Ok e →
        ep_run_type (parameters e) = run_type_of (run_type_args c)) ∧
  (∀ se, structure_entry (with_calcs_reversed task_doc (c :: rest)) = Ok se →
         ep_run_type (cse_parameters se) = run_type_of (run_type_args c)).
Proof.
  split_and!; [done..| |].
  - unfold entry. intros e H.
    inv_bind H. rewrite run_type_head in H. simpl in H. by injection H as <-.
  - unfold structure_entry. intros se H. inv_bind H.
    cbv zeta in H. rewrite from_dict_as_dict in H.
    destruct (entry_Ok _ _ Ha) as (s & rt & Hs & Hrt & _ & Hp).
    rewrite run_type_head in Hrt. injection Hrt as <-.
    rewrite Hs in H. injection H as <-. exact Hp.
Qed.

(** C9. [structure_entry] succeeds exactly when [entry] does, fails with
    the same exception otherwise, and is [entry] plus one field: its
    structure is [task_doc.output.structure], and its entry id,
    composition, energy, correction, parameters and data are those of
    [entry].  The entry passes through its dictionary on the way:
    ["structure"] is set in [entry.as_dict()], which leaves the other keys
    as they are, and the composition, which is recomputed from the
    structure, is again that of the output structure. *)
Theorem structure_entry_is_entry_with_structure task_doc :
  (∀ e, entry task_doc = Ok e →
     ∃ se, structure_entry task_doc = Ok se ∧
           cse_structure se = out_structure (output task_doc) ∧
           cse_entry_id se = entry_id e ∧
           cse_composition se = entry_composition e ∧
           cse_energy se = energy e ∧
           cse_correction se = correction e ∧
           cse_parameters se = parameters e ∧
           cse_data se = entry_data e) ∧
  (∀ se, structure_entry task_doc = Ok se →
     ∃ e, entry task_doc = Ok e ∧
          cse_structure se = out_structure (output task_doc) ∧
          cse_entry_id se = entry_id e ∧
          cse_composition se = entry_composition e ∧
          cse_energy se = energy e ∧
          cse_correction se = correction e ∧
          cse_parameters se = parameters e ∧
          cse_data se = entry_data e) ∧
  (∀ err, entry task_doc = Raise err → structure_entry task_doc = Raise err).
Proof.
  unfold structure_entry. split_and!.
  - intros e He. rewrite He. cbn [mbind Result_bind]. cbv zeta.
    rewrite from_dict_as_dict.
    destruct (entry_Ok _ _ He) as (s & rt & Hs & _ & Hc & _).
    rewrite Hs. eexists. split; [reflexivity|]. simpl. by split_and!.
  - intros se H. inv_bind H. cbv zeta in H. rewrite from_dict_as_dict in H.
    destruct (entry_Ok _ _ Ha) as (s & rt & Hs & _ & Hc & _).
    rewrite Hs in H. injection H as <-. exists a. simpl. by split_and!.
  - by intros err ->.
Qed.

(** ** The Hubbard-U check *)

Lemma dict_get_Some_elem {V : Type} (d : list (string * V)) (k : string) (v : V) :
  NoDup d.*1 → dict_get k d = Some v ↔ (k, v) ∈ d.
Proof.
  induction d as [|[k' v'] d IH]; simpl; intros Hnd.
  - split; [done | by intros ?%elem_of_nil].
  - apply NoDup_cons in Hnd as [Hk' Hnd]. rewrite elem_of_cons.
    destruct (String.eqb_spec k k') as [->|Hne].
    + split; [intros [= ->]; by left|].
      intros [[= ->]|Hin]; [done|].
      destruct Hk'. apply list_elem_of_fmap. by exists (k', v).
    + rewrite (IH Hnd). split; [by right|].
      by intros [[= -> ->]|Hin].
Qed.

Lemma dict_get_is_Some {V : Type} (d : list (string * V)) (k : string) :
  is_Some (dict_get k d) ↔ k ∈ d.*1.
Proof.
  induction d as [|[k' v'] d IH]; simpl.
  - split; [by intros [? [=]] | by intros ?%elem_of_nil].
  - rewrite elem_of_cons. destruct (String.eqb_spec k k') as [->|Hne].
    + split; [by left | by eexists].
    + rewrite IH. naive_solver.
Qed.

(** Reordering the rows of an association with distinct keys does not
    change what a key maps to. *)
Lemma dict_get_Permutation {V : Type} (d d' : list (string * V)) (k : string) :
  NoDup d.*1 → d' ≡ₚ d → dict_get k d' = dict_get k d.
Proof.
  intros Hnd Hp.
  assert (NoDup d'.*1) as Hnd' by by rewrite Hp.
  apply option_eq. intros v.
  rewrite !dict_get_Some_elem by done. by rewrite Hp.
Qed.

Lemma dict_set_fresh {V : Type} (d : list (string * V)) (k : string) (v : V) :
  k ∉ d.*1 → dict_set k v d = d ++ [(k, v)].
Proof.
  induction d as [|[k' v'] d IH]; simpl; [done|].
  rewrite not_elem_of_cons. intros [Hne Hk].
  destruct (String.eqb_spec k k') as [->|_]; [done|]. by rewrite IH.
Qed.

(** Rows with distinct symbols are the dictionary built from them. *)
Lemma dict_of_rows_NoDup {V : Type} (rows : list (string * V)) :
  NoDup rows.*1 → dict_of_rows rows = rows.
Proof.
  unfold dict_of_rows.
  enough (∀ acc, NoDup (acc ++ rows).*1 →
            fold_left (fun d r => dict_set r.1 r.2 d) rows acc = acc ++ rows)
    as H by exact (H []).
  induction rows as [|[k v] rows IH]; intros acc Hnd; simpl.
  - by rewrite app_nil_r.
  - rewrite fmap_app in Hnd. apply NoDup_app in Hnd as (Ha & Hdisj & Hr).
    rewrite dict_set_fresh.
    + rewrite IH; [by rewrite <- app_assoc|].
      rewrite <- app_assoc, fmap_app. simpl. apply NoDup_app. done.
    + intros Hk. apply (Hdisj k Hk). simpl. by left.
Qed.

(** The search, from its result: it answers [True] exactly when some
    observed element has a tuple different from its reference tuple. *)
Lemma any_mismatch_Ok (ref items : list (string * list pynum)) (b : bool) :
  any_mismatch ref items = Ok b →
  b = true ↔
  ∃ el p q, (el, p) ∈ items ∧ dict_get el ref = Some q ∧ tuple_ne q p = true.
Proof.
  revert b. induction items as [|[el p] items IH]; simpl; intros b H.
  - injection H as <-. split; [done|]. by intros (? & ? & ? & ?%elem_of_nil & _).
  - inv_bind H. destruct (dict_get el ref) as [q|] eqn:Hq; [|done].
    injection Ha as <-.
    destruct (tuple_ne q p) eqn:Hne.
    + injection H as <-. split; [|done]. intros _. exists el, p, q.
      split_and!; [by left|done..].
    + rewrite (IH b H). split.
      * intros (el' & p' & q' & Hin & Hq' & Hne'). exists el', p', q'.
        split_and!; [by right|done..].
      * intros (el' & p' & q' & [[= -> ->]|Hin]%elem_of_cons & Hq' & Hne').
        -- congruence.
        -- by exists el', p', q'.
Qed.

(** The search does not raise when every observed element has reference
    parameters. *)
Lemma any_mismatch_total (ref items : list (string * list pynum)) :
  (∀ el, el ∈ items.*1 → is_Some (dict_get el ref)) →
  ∃ b, any_mismatch ref items = Ok b.
Proof.
  induction items as [|[el p] items IH]; simpl; intros Hcov; [by eexists|].
  destruct (Hcov el) as [q ->]; [by left|]. simpl.
  destruct (tuple_ne q p); [by eexists|].
  apply IH. intros el' Hel'. apply Hcov. by right.
Qed.

Lemma parameters_differ_Permutation
    (observed observed' reference reference' : list (string * list pynum)) :
  NoDup observed.*1 → NoDup reference.*1 →
  observed' ≡ₚ observed → reference' ≡ₚ reference →
  parameters_differ observed' reference' ↔ parameters_differ observed reference.
Proof.
  intros Ho Hr Hpo Hpr. unfold parameters_differ.
  split; intros [el Hel]; exists el;
    by rewrite (dict_get_Permutation _ _ el Ho Hpo),
               (dict_get_Permutation _ _ el Hr Hpr) in *.
Qed.

(** On associations with distinct keys over the same elements, the
    comparison returns, and answers whether some element's parameters
    differ. *)
Lemma ldau_mismatch_spec (observed reference : list (string * list pynum)) :
  NoDup observed.*1 → NoDup reference.*1 →
  same_elements observed reference →
  ∃ b, ldau_mismatch reference observed = Ok b ∧
       (b = true ↔ parameters_differ observed reference).
Proof.
  intros Ho Hr Hsame. unfold ldau_mismatch.
  rewrite !dict_of_rows_NoDup by done.
  destruct (any_mismatch_total reference observed) as [b Hb].
  { intros el Hel. apply Hsame. by apply dict_get_is_Some. }
  exists b. split; [done|].
  rewrite (any_mismatch_Ok _ _ _ Hb). unfold parameters_differ. split.
  - intros (el & p & q & Hin & Hq & Hne). exists el.
    apply dict_get_Some_elem in Hin; [|done]. by rewrite Hin, Hq.
  - intros [el Hel].
    destruct (dict_get el observed) as [p|] eqn:Hp,
             (dict_get el reference) as [q|] eqn:Hq; try done.
    + exists el, p, q. split_and!; [|done..]. by apply dict_get_Some_elem.
    + destruct (proj1 (Hsame el)) as [q Hq']; [by rewrite Hp|]. congruence.
    + destruct (proj2 (Hsame el)) as [p Hp']; [by rewrite Hq|]. congruence.
Qed.

(** In a returned document the LDAU flag is the answer of the
    comparison. *)
Lemma ldau_flag_is_mismatch
    task_doc tol input_sets fields thr dep observed reference doc :
  ldau_compared task_doc input_sets fields observed reference →
  from_task_doc task_doc tol input_sets fields thr dep = Ok doc →
  LDAU ∈ reasons doc ↔ ldau_mismatch reference observed = Ok true.
Proof.
  intros (mk & vis & s & Hmk & Hvis & Hldau & Hs & -> & Href) Hdoc.
  destruct (from_task_doc_reference _ _ _ _ _ _ _ _ Hmk Hdoc)
    as (vis' & st & Hvis' & Hout & Hr & Hd).
  rewrite Hvis in Hvis'. injection Hvis' as <-.
  destruct Hout as [vnk kr ve f er bl es mg _ _ _ _ _ Hbl _ _].
  rewrite Hldau in Hbl. destruct Hbl as (s' & rr & Hs' & Hrr & Hbl).
  rewrite Hs in Hs'. injection Hs' as <-.
  rewrite Href in Hrr. injection Hrr as <-.
  simpl in Hr. rewrite Hr, !elem_of_app, !elem_of_flag, Hbl.
  split; [|intros [= ->]; tauto].
  intros H. f_equal. naive_solver.
Qed.

Lemma same_elements_Permutation
    (observed observed' reference reference' : list (string * list pynum)) :
  NoDup observed.*1 → NoDup reference.*1 →
  observed' ≡ₚ observed → reference' ≡ₚ reference →
  same_elements observed reference → same_elements observed' reference'.
Proof.
  intros Ho Hr Hpo Hpr Hsame el.
  rewrite (dict_get_Permutation _ _ el Ho Hpo),
          (dict_get_Permutation _ _ el Hr Hpr).
  apply Hsame.
Qed.




(** ** Zero reference values *)

(** A quotient by zero is an infinity or a NaN. *)
Lemma div_zero_inf_or_nan (x : float) :
  is_inf (PrimFloat.div x 0) = true ∨ PrimFloat.is_nan (PrimFloat.div x 0) = true.
Proof.
  pose proof (FloatAxioms.div_spec x 0) as Hdiv.
  change (Prim2SF 0) with (S754_zero false) in Hdiv.
  unfold is_inf. rewrite FloatAxioms.eqb_spec, FloatAxioms.abs_spec.
  rewrite is_nan_Prim2SF, Hdiv.
  destruct (Prim2SF x) as [[]|[]| |[] m e]; simpl; auto.
Qed.

Lemma float_truediv_zero (a : float) (b : pynum) :
  pynum_is_zero b = true → float_truediv a b = Raise ZeroDivisionError.
Proof.
  destruct b as [z|g]; simpl; intros Hz; by rewrite Hz.
Qed.

(** C3. Take a task whose task type has the reference input
    set [vis].  If the reference ENCUT is zero, [from_task_doc] returns no
    document, and raises [ZeroDivisionError] once the k-point check has
    passed and the observed ENCUT converts to a float.  If the reference
    k-point count is zero, the k-point check does not raise: it stores an
    infinite or NaN [kpts_ratio] and decides KPTS by the usual
    comparison.  And the reasons of every returned document are among
    KPTS, ENCUT, LDAU, MAX_SCF and MANUAL: there is no further
    outcome. *)
Theorem zero_reference_value_outcomes
    task_doc tol input_sets fields thr dep mk vis :
  input_sets !! task_type task_doc = Some mk →
  mk (out_structure (output task_doc)) = Ok vis →
  (∀ valid_encut,
     incar_ENCUT (vis_incar vis) = Some valid_encut →
     pynum_is_zero valid_encut = true →
     (∀ doc, from_task_doc task_doc tol input_sets fields thr dep ≠ Ok doc) ∧
     (∀ st encut,
        check_kpts vis (orig_inputs task_doc) tol ([], ∅) = Ok st →
        py_float (incar_ENCUT (inputs_incar (orig_inputs task_doc))) = Ok encut →
        from_task_doc task_doc tol input_sets fields thr dep
          = Raise ZeroDivisionError)) ∧
  (∀ vnk,
     valid_num_kpts vis = Ok vnk → count_val vnk = 0 →
     ∃ ratio,
       (is_inf ratio = true ∨ PrimFloat.is_nan ratio = true) ∧
       ∀ reasons data,
         check_kpts vis (orig_inputs task_doc) tol (reasons, data) =
           Ok (reasons ++ flag (PrimFloat.ltb ratio tol) KPTS,
               <["kpts_ratio" := ratio]> data)) ∧
  (∀ doc m,
     from_task_doc task_doc tol input_sets fields thr dep = Ok doc →
     m ∈ reasons doc → m ∈ [KPTS; ENCUT; LDAU; MAX_SCF; MANUAL]).
Proof.
  intros Hmk Hvis. split_and!.
  - intros ve Hve Hzero. split.
    + intros doc Hdoc.
      destruct (from_task_doc_reference _ _ _ _ _ _ _ _ Hmk Hdoc)
        as (vis' & st & Hvis' & Hout & _).
      rewrite Hvis in Hvis'. injection Hvis' as <-.
      destruct Hout as [vnk kr ve' f er bl es mg _ _ Hve' _ Her _ _ _].
      rewrite Hve in Hve'. injection Hve' as <-.
      by rewrite float_truediv_zero in Her.
    + intros [reasons data] f Hk Hf.
      unfold from_task_doc, reference_checks, numeric_checks.
      rewrite Hmk, Hvis. cbn [mbind Result_bind]. rewrite Hk.
      cbn [mbind Result_bind]. unfold check_encut. rewrite Hve.
      cbn [mbind Result_bind subscript]. rewrite Hf.
      cbn [mbind Result_bind]. by rewrite float_truediv_zero.
  - intros vnk Hvnk Hzero.
    assert (vnk = NpInt64 0) as ->.
    { unfold valid_num_kpts in Hvnk.
      destruct (vis_num_kpts vis =? 0) eqn:Hn.
      - inv_bind Hvnk. injection Hvnk as <-. simpl in Hzero. by rewrite Hzero.
      - injection Hvnk as <-. simpl in Hzero. apply Z.eqb_neq in Hn. done. }
    exists (PrimFloat.div (Z2float (count_val (num_kpts (orig_inputs task_doc)))) 0).
    split; [apply div_zero_inf_or_nan|].
    intros reasons data. unfold check_kpts. rewrite Hvnk.
    cbn [mbind Result_bind].
    assert (count_truediv (num_kpts (orig_inputs task_doc)) (NpInt64 0) =
            Ok (PrimFloat.div
                  (Z2float (count_val (num_kpts (orig_inputs task_doc)))) 0))
      as -> by by destruct (num_kpts (orig_inputs task_doc)).
    cbn [mbind Result_bind]. by rewrite flag_app.
  - intros doc m (st & rt & Hst & _ & Hr & _)%from_task_doc_Ok.
    rewrite Hr, elem_of_app, elem_of_flag.
    intros [Hm|[_ ->]]; [|set_solver].
    apply (reference_checks_reasons _ _ _ _ _ _ _ Hst) in Hm. set_solver.
Qed.

End Validation.

(** ** The properties at sample documents *)

Module Witness.
Import Sample MoreSample.
#[local] Existing Instance collaborators.

Lemma input_sets_lookup (vis : VaspInputSet) (t : TaskDocument) :
  input_sets vis !! task_type t = Some (fun _ => Ok vis).
Proof. apply lookup_singleton_eq. Qed.

Lemma valid_iff_no_reasons_witness :
  ∃ doc,
    validate (task incar_U (Some grid444) []) (reference (PInt 520) [[4; 4; 4]]) None
      = Ok doc ∧
    (valid doc = true ↔ reasons doc = []).
Proof.
  destruct (validate (task incar_U (Some grid444) [])
              (reference (PInt 520) [[4; 4; 4]]) None) as [doc|e] eqn:E;
    [|by vm_compute in E].
  exists doc. split; [done|].
  unfold validate in E. exact (valid_iff_no_reasons _ _ _ _ _ _ _ E).
Defined.


Lemma no_reference_only_manual_witness :
  ∃ doc,
    from_task_doc (task incar_U (Some grid444) ["deprecated"]) 0.9%float
      ∅ LDAU_fields 1000%float None = Ok doc ∧
    (KPTS ∉ reasons doc) ∧ data doc = ∅ ∧ reasons doc = [MANUAL].
Proof.
  destruct (no_reference_only_manual
              (task incar_U (Some grid444) ["deprecated"]) 0.9%float
              ∅ LDAU_fields 1000%float None) as [Hex Hall];
    [reflexivity|].
  destruct Hex as [doc Hdoc]; [done|].
  exists doc. split; [done|].
  destruct (Hall doc Hdoc) as (Hk & _ & _ & _ & Hd & Hr).
  split_and!; [done..|]. rewrite Hr. reflexivity.
Defined.

Lemma encut_flag_iff_ratio_below_one_witness :
  ∃ doc doc',
    validate (task incar_U (Some grid444) []) (reference (PInt 520) [[4; 4; 4]]) None
      = Ok doc ∧
    data doc !! "encut_ratio" = Some 1%float ∧
    (ENCUT ∉ reasons doc) ∧
    validate (task incar_400 (Some grid444) []) (reference (PInt 520) [[4; 4; 4]]) None
      = Ok doc' ∧
    data doc' !! "encut_ratio" = Some (PrimFloat.div 400 520) ∧
    ENCUT ∈ reasons doc'.
Proof.
  destruct (validate (task incar_U (Some grid444) [])
              (reference (PInt 520) [[4; 4; 4]]) None) as [doc|e] eqn:E;
    [|by vm_compute in E].
  destruct (validate (task incar_400 (Some grid444) [])
              (reference (PInt 520) [[4; 4; 4]]) None) as [doc'|e] eqn:E';
    [|by vm_compute in E'].
  unfold validate in E, E'.
  destruct (encut_flag_iff_ratio_below_one _ _ _ _ _ _ _ _
              (input_sets_lookup _ _) E)
    as (vis & ve & n & f & ratio & [= <-] & [= <-] & [= <-] & -> & _ & ->
        & _ & _ & Hd & _ & Hone).
  destruct (encut_flag_iff_ratio_below_one _ _ _ _ _ _ _ _
              (input_sets_lookup _ _) E')
    as (vis' & ve' & n' & f' & ratio' & [= <-] & [= <-] & [= <-] & -> & _ & ->
        & _ & _ & Hd' & Hiff' & _).
  exists doc, doc'. split_and!; [done| |by apply Hone|done| |by apply Hiff'].
  - rewrite Hd. reflexivity.
  - rewrite Hd'. reflexivity.
Defined.

Lemma max_scf_flag_iff_gradient_above_threshold_witness :
  ∃ doc doc',
    validate (task incar_U (Some grid444) []) (reference (PInt 520) [[4; 4; 4]]) None
      = Ok doc ∧
    data doc !! "max_gradient" = Some (-0.5)%float ∧
    (MAX_SCF ∉ reasons doc) ∧
    from_task_doc task_rising 0.9%float
      (input_sets (reference (PInt 520) [[4; 4; 4]])) LDAU_fields 1%float None
      = Ok doc' ∧
    data doc' !! "max_gradient" = Some 2%float ∧
    MAX_SCF ∈ reasons doc'.
Proof.
  destruct (validate (task incar_U (Some grid444) [])
              (reference (PInt 520) [[4; 4; 4]]) None) as [doc|e] eqn:E;
    [|by vm_compute in E].
  destruct (from_task_doc task_rising 0.9%float
              (input_sets (reference (PInt 520) [[4; 4; 4]])) LDAU_fields
              1%float None) as [doc'|e] eqn:E';
    [|by vm_compute in E'].
  unfold validate in E.
  destruct (max_scf_flag_iff_gradient_above_threshold _ _ _ _ _ _ _ _
              (input_sets_lookup _ _) E)
    as (c & rest & out & steps & st & es & en & g & mg & [= <- <-] & [= <-]
        & [= <-] & [= <-] & [= <-] & Hen & Hg & _ & H0 & H1 & H2
        & _ & Hmax & _ & _ & Hd & Hiff).
  destruct (max_scf_flag_iff_gradient_above_threshold _ _ _ _ _ _ _ _
              (input_sets_lookup _ task_rising) E')
    as (c' & rest' & out' & steps' & st' & es' & en' & g' & mg' & [= <- <-]
        & [= <-] & [= <-] & [= <-] & [= <-] & Hen' & Hg' & _ & H0' & H1' & H2'
        & _ & Hmax' & _ & _ & Hd' & Hiff').
  assert (en = energies) as ->.
  { do 3 (apply Forall2_cons_inv_l in Hen as (? & ? & [= <-] & Hen & ->)).
    by apply Forall2_nil_inv_l in Hen as ->. }
  assert (en' = rising) as ->.
  { do 3 (apply Forall2_cons_inv_l in Hen' as (? & ? & [= <-] & Hen' & ->)).
    by apply Forall2_nil_inv_l in Hen' as ->. }
  injection Hg as <-. injection Hg' as <-.
  injection Hmax as <-. injection Hmax' as <-.
  exists doc, doc'. split_and!; [done|exact Hd| |done|exact Hd'|].
  - intros Hin%Hiff. by vm_compute in Hin.
  - by apply Hiff'.
Defined.

Lemma missing_kpoints_count_is_one_witness :
  num_kpts (orig_inputs (task incar_U None [])) = NpInt64 1 ∧
  ∃ doc,
    validate (task incar_U None []) (reference (PInt 520) [[4; 4; 4]]) None
      = Ok doc ∧
    data doc !! "kpts_ratio" = Some (PrimFloat.div 1 64) ∧
    reasons doc = [KPTS].
Proof.
  destruct (missing_kpoints_count_is_one (task incar_U None []) 0.9%float
              (input_sets (reference (PInt 520) [[4; 4; 4]])) LDAU_fields
              1000%float None
              _ (input_sets_lookup _ _)
              (or_introl eq_refl)) as (Hone & _ & Hdoc).
  split; [done|].
  destruct (validate (task incar_U None [])
              (reference (PInt 520) [[4; 4; 4]]) None) as [doc|e] eqn:E;
    [|by vm_compute in E].
  exists doc. split; [done|].
  destruct (Hdoc doc E) as (vis & vnk & [= <-] & [= <-] & Hd).
  split; [exact Hd|].
  vm_compute in E. by injection E as <-.
Defined.

Lemma entry_reflects_latest_step_witness :
  ∃ e,
    entry (task incar_U (Some grid444) []) = Ok e ∧
    entry (with_calcs_reversed (task incar_U (Some grid444) [])
             [calc incar_U energies; calc incar_GGA energies]) = Ok e ∧
    ep_run_type (parameters e) = "GGA+U".
Proof.
  destruct (entry_reflects_latest_step (task incar_U (Some grid444) [])
              (calc incar_U energies) [] [calc incar_GGA energies])
    as (He & _ & Hrt & _).
  destruct (entry (with_calcs_reversed (task incar_U (Some grid444) [])
                     [calc incar_U energies])) as [e|err] eqn:E;
    [|by vm_compute in E].
  exists e. split_and!; [exact E | by rewrite <- He |].
  rewrite (Hrt e eq_refl). reflexivity.
Defined.

Lemma structure_entry_is_entry_with_structure_witness :
  ∃ e se,
    entry (task incar_U (Some grid444) []) = Ok e ∧
    structure_entry (task incar_U (Some grid444) []) = Ok se ∧
    cse_structure se = Some FeO ∧
    cse_energy se = energy e ∧
    cse_parameters se = parameters e.
Proof.
  destruct (structure_entry_is_entry_with_structure
              (task incar_U (Some grid444) [])) as (H & _ & _).
  destruct (entry (task incar_U (Some grid444) [])) as [e|err] eqn:E;
    [|by vm_compute in E].
  destruct (H e eq_refl) as (se & Hse & Hs & _ & _ & He & _ & Hp & _).
  by exists e, se.
Defined.


Lemma zero_reference_value_outcomes_witness :
  validate (task incar_U (Some grid444) []) (reference (PInt 0) [[0; 4; 4]]) None
    = Raise ZeroDivisionError ∧
  ∃ ratio,
    (is_inf ratio = true ∨ PrimFloat.is_nan ratio = true) ∧
    check_kpts (reference (PInt 0) [[0; 4; 4]])
      (orig_inputs (task incar_U (Some grid444) [])) 0.9%float ([], ∅)
      = Ok ([] ++ flag (PrimFloat.ltb ratio 0.9) KPTS, <["kpts_ratio" := ratio]> ∅).
Proof.
  destruct (zero_reference_value_outcomes
              (task incar_U (Some grid444) []) 0.9%float
              (input_sets (reference (PInt 0) [[0; 4; 4]])) LDAU_fields
              1000%float None _ (reference (PInt 0) [[0; 4; 4]])
              (input_sets_lookup _ _) eq_refl) as (Hencut & Hkpts & _).
  destruct (Hencut (PInt 0) eq_refl eq_refl) as [_ Hraise].
  destruct (Hkpts (NpInt64 0) eq_refl eq_refl) as (ratio & Hratio & Hcheck).
  split.
  - exact (Hraise _ (Z2float 520) (Hcheck [] ∅) eq_refl).
  - by exists ratio.
Defined.


End Witness.

(** ** Inputs on which the stated properties fail *)

Module Counterexample.
Import Sample.
#[local] Existing Instance collaborators.


(** C3. A zero reference ENCUT makes [from_task_doc] raise
    [ZeroDivisionError]; a zero reference k-point count is not reported
    either: the document is valid, with an infinite [kpts_ratio], or a
    NaN one when the observed count is zero as well. *)
Lemma zero_reference_not_reported :
  validate (task incar_U (Some grid444) []) (reference (PInt 0) [[4; 4; 4]]) None
    = Raise ZeroDivisionError ∧
  (∃ doc,
     validate (task incar_U (Some grid444) []) (reference (PInt 520) [[0; 4; 4]]) None
       = Ok doc ∧
     data doc !! "kpts_ratio" = Some infinity ∧
     reasons doc = [] ∧ valid doc = true) ∧
  (∃ doc ratio,
     validate (task incar_U (Some grid000) []) (reference (PInt 520) [[0; 4; 4]]) None
       = Ok doc ∧
     data doc !! "kpts_ratio" = Some ratio ∧ PrimFloat.is_nan ratio = true ∧
     reasons doc = [] ∧ valid doc = true).
Proof.
  split_and!.
  - by vm_compute.
  - destruct (validate (task incar_U (Some grid444) [])
                (reference (PInt 520) [[0; 4; 4]]) None) as [doc|e] eqn:E;
      vm_compute in E; [|done].
    exists doc. injection E as <-. by split_and!.
  - destruct (validate (task incar_U (Some grid000) [])
                (reference (PInt 520) [[0; 4; 4]]) None) as [doc|e] eqn:E;
      vm_compute in E; [|done].
    exists doc, nan. injection E as <-. by split_and!.
Qed.


(** The per-element lists are paired with [structure.symbol_set] by
    position: the INCAR lists of the same run written in the order O, Fe,
    with the symbols still ordered Fe, O, are flagged. *)
Lemma ldau_lists_paired_by_position :
  ∃ doc doc',
    validate (task_on FeO incar_U (Some grid444) [])
      (reference (PInt 520) [[4; 4; 4]]) None = Ok doc ∧
    validate (task_on FeO incar_U_OFe (Some grid444) [])
      (reference (PInt 520) [[4; 4; 4]]) None = Ok doc' ∧
    reasons doc = [] ∧ reasons doc' = [LDAU].
Proof.
  destruct (validate (task_on FeO incar_U (Some grid444) [])
              (reference (PInt 520) [[4; 4; 4]]) None) as [doc|e] eqn:E;
    vm_compute in E; [|done].
  destruct (validate (task_on FeO incar_U_OFe (Some grid444) [])
              (reference (PInt 520) [[4; 4; 4]]) None) as [doc'|e] eqn:E';
    vm_compute in E'; [|done].
  exists doc, doc'. injection E as <-. injection E' as <-. by split_and!.
Qed.

End Counterexample.

(** * Further properties of the validation *)

(** ** More order facts on doubles *)

Lemma SFltb_leb_trans (x y z : spec_float) :
  SFltb x y = true → SFleb y z = true → SFltb x z = true.
Proof.
  unfold SFltb, SFleb, SFcompare.
  destruct x as [[]|[]| |[] m1 e1], y as [[]|[]| |[] m2 e2],
           z as [[]|[]| |[] m3 e3];
    try reflexivity; try discriminate;
    change (Pos.compare_cont Eq ?a ?b) with (Pos.compare a b) in *;
    intros H1 H2; cmp_cases; simpl in *;
    try reflexivity; try discriminate; try lia.
Qed.

Lemma SFleb_ltb_trans (x y z : spec_float) :
  SFleb x y = true → SFltb y z = true → SFltb x z = true.
Proof.
  unfold SFltb, SFleb, SFcompare.
  destruct x as [[]|[]| |[] m1 e1], y as [[]|[]| |[] m2 e2],
           z as [[]|[]| |[] m3 e3];
    try reflexivity; try discriminate;
    change (Pos.compare_cont Eq ?a ?b) with (Pos.compare a b) in *;
    intros H1 H2; cmp_cases; simpl in *;
    try reflexivity; try discriminate; try lia.
Qed.

Lemma ltb_leb_trans (x y z : float) :
  PrimFloat.ltb x y = true → PrimFloat.leb y z = true → PrimFloat.ltb x z = true.
Proof. rewrite !FloatAxioms.ltb_spec, FloatAxioms.leb_spec. apply SFltb_leb_trans. Qed.

Lemma leb_ltb_trans (x y z : float) :
  PrimFloat.leb x y = true → PrimFloat.ltb y z = true → PrimFloat.ltb x z = true.
Proof. rewrite !FloatAxioms.ltb_spec, FloatAxioms.leb_spec. apply SFleb_ltb_trans. Qed.

Section MoreValidation.
Context `{C : Collaborators}.

Implicit Types (task_doc : TaskDocument) (doc : ValidationDoc).
Implicit Types (input_sets : gmap string (option Structure -> Result VaspInputSet)).

(** ** The k-point check *)





(** ** The shape of a returned document *)

Lemma flags_sublist (a b c d e : bool) :
  sublist (flag a KPTS ++ flag b ENCUT ++ flag c LDAU ++ flag d MAX_SCF
             ++ flag e MANUAL)
          [KPTS; ENCUT; LDAU; MAX_SCF; MANUAL].
Proof.
  destruct a, b, c, d, e; simpl;
    repeat first [apply sublist_nil | apply sublist_skip | apply sublist_cons].
Qed.

(** X3. The reasons of a returned document are a sub-sequence of KPTS,
    ENCUT, LDAU, MAX_SCF, MANUAL: the codes come in the order of the
    checks, each at most once, and FORCES and CONVERGENCE are never
    given. *)
Theorem reasons_follow_check_order task_doc tol input_sets fields thr dep doc :
  from_task_doc task_doc tol input_sets fields thr dep = Ok doc →
  sublist (reasons doc) [KPTS; ENCUT; LDAU; MAX_SCF; MANUAL] ∧
  NoDup (reasons doc) ∧
  (FORCES ∉ reasons doc) ∧ (CONVERGENCE ∉ reasons doc).
Proof.
  intros (st & rt & Hst & _ & Hr & _)%from_task_doc_Ok.
  assert (sublist (reasons doc) [KPTS; ENCUT; LDAU; MAX_SCF; MANUAL]) as Hsub.
  { rewrite Hr. apply reference_checks_Ok in Hst.
    destruct (input_sets !! task_type task_doc).
    - destruct Hst as (vis & _ & []). simpl.
      rewrite <- !app_assoc. apply flags_sublist.
    - subst st. apply (flags_sublist false false false false). }
  split; [exact Hsub|]. split; [|split].
  - refine (sublist_NoDup _ _ _ Hsub).
    repeat (apply NoDup_cons; split; [set_solver|]). apply NoDup_nil_2.
  - intros Hin. apply (elem_of_sublist _ _ _ Hin) in Hsub. set_solver.
  - intros Hin. apply (elem_of_sublist _ _ _ Hin) in Hsub. set_solver.
Qed.

(** X4. With a reference input set, the diagnostics of a returned
    document are exactly the three ratios: [data] has the keys
    [kpts_ratio], [encut_ratio] and [max_gradient] and no other. *)
Theorem data_keys_with_reference task_doc tol input_sets fields thr dep mk doc :
  input_sets !! task_type task_doc = Some mk →
  from_task_doc task_doc tol input_sets fields thr dep = Ok doc →
  dom (data doc) = ({[ "kpts_ratio"; "encut_ratio"; "max_gradient" ]} : gset string).
Proof.
  intros Hmk Hdoc.
  destruct (from_task_doc_reference _ _ _ _ _ _ _ _ Hmk Hdoc)
    as (vis & st & _ & [] & _ & ->).
  simpl. rewrite !dom_insert_L, dom_empty_L. set_solver.
Qed.

(** X5. With a reference input set, a returned document is valid
    exactly when every check passed: neither ratio is below its bound,
    the SCF gradient does not exceed its threshold, LDAU was not flagged,
    and neither the task nor the deny-list holds a tag. *)
Theorem valid_iff_all_checks_pass task_doc tol input_sets fields thr dep mk doc :
  input_sets !! task_type task_doc = Some mk →
  from_task_doc task_doc tol input_sets fields thr dep = Ok doc →
  ∃ kpts_ratio encut_ratio max_gradient,
    data doc !! "kpts_ratio" = Some kpts_ratio ∧
    data doc !! "encut_ratio" = Some encut_ratio ∧
    data doc !! "max_gradient" = Some max_gradient ∧
    (valid doc = true ↔
       PrimFloat.ltb kpts_ratio tol = false ∧
       PrimFloat.ltb encut_ratio 1 = false ∧
       LDAU ∉ reasons doc ∧
       PrimFloat.ltb thr max_gradient = false ∧
       tags task_doc = [] ∧ default [] dep = []).
Proof.
  intros Hmk Hdoc.
  destruct (from_task_doc_reference _ _ _ _ _ _ _ _ Hmk Hdoc)
    as (vis & st & _ & Hout & Hr & Hd).
  apply from_task_doc_Ok in Hdoc as (_ & _ & _ & _ & _ & _ & Hv & _).
  destruct Hout as [vnk kr ve f er bl es mg _ _ _ _ _ _ _ _].
  simpl in Hr, Hd. exists kr, er, mg.
  split_and!; try (rewrite Hd; by simplify_map_eq).
  rewrite Hv, Nat.eqb_eq, length_zero_iff_nil.
  assert (LDAU ∉ reasons doc ↔ bl = false) as ->.
  { rewrite Hr, !elem_of_app, !elem_of_flag. destruct bl; naive_solver. }
  assert (bool_decide (manual_tags task_doc (default [] dep) ≠ ∅) = false ↔
          tags task_doc = [] ∧ default [] dep = []) as <-.
  { rewrite bool_decide_eq_false. unfold manual_tags. split.
    - intros Hne. apply dec_stable in Hne.
      apply empty_union_L in Hne as [Ht Hd'].
      split; [by destruct (tags task_doc); [|set_solver]
             |by destruct (default [] dep); [|set_solver]].
    - intros [-> ->] Hne. by apply Hne. }
  rewrite Hr.
  destruct (PrimFloat.ltb kr tol), (PrimFloat.ltb er 1), bl,
    (PrimFloat.ltb thr mg),
    (bool_decide (manual_tags task_doc (default [] dep) ≠ ∅)); simpl;
    naive_solver.
Qed.

(** ** More on the Hubbard-U check *)

(** X6. When the reference input set does not ask for LDAU, a returned
    document never carries the LDAU flag, whatever U values the task was
    run with. *)
Theorem ldau_not_required_never_flagged
    task_doc tol input_sets fields thr dep mk vis doc :
  input_sets !! task_type task_doc = Some mk →
  mk (out_structure (output task_doc)) = Ok vis →
  default false (incar_LDAU (vis_incar vis)) = false →
  from_task_doc task_doc tol input_sets fields thr dep = Ok doc →
  LDAU ∉ reasons doc.
Proof.
  intros Hmk Hvis Hldau Hdoc.
  destruct (from_task_doc_reference _ _ _ _ _ _ _ _ Hmk Hdoc)
    as (vis' & st & Hvis' & Hout & Hr & _).
  rewrite Hvis in Hvis'. injection Hvis' as <-.
  destruct Hout as [vnk kr ve f er bl es mg _ _ _ _ _ Hbl _ _].
  rewrite Hldau in Hbl. subst bl. simpl in Hr.
  rewrite Hr, !elem_of_app, !elem_of_flag. naive_solver.
Qed.

Lemma zip_rows_empty_field (symbols : list string) (lists : list (list pynum)) :
  [] ∈ lists → zip_rows symbols lists = [].
Proof.
  intros Hin. destruct symbols as [|el symbols]; [done|]. simpl.
  destruct (mapM head lists) as [params|] eqn:Hm; [|done].
  assert (is_Some (mapM head lists)) as Hs by by eexists.
  apply mapM_is_Some in Hs. rewrite Forall_forall in Hs.
  by destruct (Hs [] Hin).
Qed.

(** X7. When one of the checked LDAU tags is absent from the observed
    INCAR (or is an empty list), no element is compared and a returned
    document never carries the LDAU flag, whatever the other tags and the
    reference hold. *)
Theorem ldau_missing_observed_tag_not_flagged
    task_doc tol input_sets fields thr dep k doc :
  k ∈ fields →
  default [] (incar_lists (inputs_incar (orig_inputs task_doc)) !! k) = [] →
  from_task_doc task_doc tol input_sets fields thr dep = Ok doc →
  LDAU ∉ reasons doc.
Proof.
  intros Hk Hempty Hdoc.
  pose proof Hdoc as (st & rt & Hst & _ & Hr & _)%from_task_doc_Ok.
  apply reference_checks_Ok in Hst.
  destruct (input_sets !! task_type task_doc) as [mk|].
  2: { subst st. simpl in Hr. rewrite Hr, elem_of_flag. naive_solver. }
  destruct Hst as (vis & _ & Hout).
  destruct Hout as [vnk kr ve f er bl es mg _ _ _ _ _ Hbl _ _].
  assert (bl = false) as ->.
  { destruct (default false (incar_LDAU (vis_incar vis))); [|done].
    destruct Hbl as (s & rr & _ & _ & Hbl).
    unfold input_ldau_rows in Hbl. rewrite zip_rows_empty_field in Hbl.
    - by injection Hbl as <-.
    - apply list_elem_of_fmap. by exists k. }
  simpl in Hr. rewrite Hr, !elem_of_app, !elem_of_flag. naive_solver.
Qed.

Lemma dict_get_elem {V : Type} (d : list (string * V)) (k : string) (v : V) :
  dict_get k d = Some v → (k, v) ∈ d.
Proof.
  induction d as [|[k' v'] d IH]; simpl; [done|].
  destruct (String.eqb_spec k k') as [->|Hne].
  - intros [= ->]. by left.
  - intros H. right. by apply IH.
Qed.

Lemma dict_set_values {V : Type} (P : V → Prop) (d : list (string * V))
    (k : string) (v : V) :
  P v → Forall (fun r => P r.2) d → Forall (fun r => P r.2) (dict_set k v d).
Proof.
  intros Hv. induction 1 as [|[k' v'] d Hx Hd IH]; simpl.
  - by repeat constructor.
  - destruct (String.eqb k k'); constructor; auto.
Qed.

(** Every value of the dictionary built from rows is a value of a row. *)
Lemma dict_of_rows_values {V : Type} (P : V → Prop) (rows : list (string * V)) :
  Forall (fun r => P r.2) rows → Forall (fun r => P r.2) (dict_of_rows rows).
Proof.
  unfold dict_of_rows.
  enough (∀ acc, Forall (fun r => P r.2) acc → Forall (fun r => P r.2) rows →
            Forall (fun r => P r.2)
              (fold_left (fun d r => dict_set r.1 r.2 d) rows acc))
    as H by (apply H; constructor).
  induction rows as [|[k v] rows IH]; intros acc Hacc Hrows; simpl; [done|].
  apply Forall_cons in Hrows as [Hv Hrows].
  apply IH; [|done]. by apply dict_set_values.
Qed.

Lemma zip_rows_no_fields (symbols : list string) :
  Forall (fun r => r.2 = []) (zip_rows symbols []).
Proof. induction symbols; simpl; by constructor. Qed.

(** X8. With an empty list of checked LDAU fields every element is
    compared on an empty tuple, so a returned document never carries the
    LDAU flag. *)
Theorem ldau_no_fields_never_flagged task_doc tol input_sets thr dep doc :
  from_task_doc task_doc tol input_sets [] thr dep = Ok doc →
  LDAU ∉ reasons doc.
Proof.
  intros Hdoc.
  pose proof Hdoc as (st & rt & Hst & _ & Hr & _)%from_task_doc_Ok.
  apply reference_checks_Ok in Hst.
  destruct (input_sets !! task_type task_doc) as [mk|].
  2: { subst st. simpl in Hr. rewrite Hr, elem_of_flag. naive_solver. }
  destruct Hst as (vis & _ & Hout).
  destruct Hout as [vnk kr ve f er bl es mg _ _ _ _ _ Hbl _ _].
  assert (bl = false) as ->.
  { destruct (default false (incar_LDAU (vis_incar vis))); [|done].
    destruct Hbl as (s & rr & _ & Hrr & Hbl).
    unfold input_set_ldau_rows in Hrr. simpl in Hrr. injection Hrr as <-.
    unfold input_ldau_rows, ldau_mismatch in Hbl. simpl in Hbl.
    destruct bl; [|done].
    apply any_mismatch_Ok in Hbl.
    destruct (proj1 Hbl eq_refl) as (el & p & q & Hin & Hq%dict_get_elem & Hne).
    pose proof (dict_of_rows_values (fun v => v = []) _
                  (zip_rows_no_fields (symbol_set s))) as Ho.
    pose proof (dict_of_rows_values (fun v => v = []) _
                  (zip_rows_no_fields (vis_symbol_set vis))) as Hrf.
    rewrite Forall_forall in Ho, Hrf.
    specialize (Ho _ Hin). specialize (Hrf _ Hq). simpl in Ho, Hrf.
    by subst p q. }
  simpl in Hr. rewrite Hr, !elem_of_app, !elem_of_flag. naive_solver.
Qed.

(** X9. The comparison of the two dictionaries raises only a [KeyError],
    for the first observed element that has no reference parameters, and
    only when every element before it matched its reference tuple. *)
Theorem any_mismatch_raises_KeyError
    (ref items : list (string * list pynum)) (e : exn) :
  any_mismatch ref items = Raise e →
  ∃ before el params after,
    items = before ++ (el, params) :: after ∧
    dict_get el ref = None ∧
    e = KeyError el ∧
    Forall (fun r => ∃ q, dict_get r.1 ref = Some q ∧ tuple_ne q r.2 = false)
           before.
Proof.
  induction items as [|[el p] items IH]; simpl; [done|].
  destruct (dict_get el ref) as [q|] eqn:Hq; simpl.
  - destruct (tuple_ne q p) eqn:Hne; [done|].
    intros (before & el' & p' & after & -> & Hnone & -> & Hall)%IH.
    exists ((el, p) :: before), el', p', after.
    split_and!; try done. constructor; [|done]. by exists q.
  - intros [= <-]. exists [], el, p, items. by split_and!.
Qed.

(** ** Malformed task documents *)

(** X10. A task without calculation steps is never validated:
    [from_task_doc] returns no document, and without a reference input
    set for the task type it raises [IndexError], from [run_type]. *)
Theorem empty_calcs_reversed_raises task_doc tol input_sets fields thr dep :
  calcs_reversed task_doc = [] →
  (∀ doc, from_task_doc task_doc tol input_sets fields thr dep ≠ Ok doc) ∧
  (input_sets !! task_type task_doc = None →
   from_task_doc task_doc tol input_sets fields thr dep = Raise IndexError).
Proof.
  intros Hcalcs. split.
  - intros doc (st & rt & _ & Hrt & _)%from_task_doc_Ok.
    unfold run_type in Hrt. by rewrite Hcalcs in Hrt.
  - intros Hnone. unfold from_task_doc, reference_checks, run_type.
    by rewrite Hnone, Hcalcs.
Qed.

(** X11. With a reference input set whose k-point check passes: a
    reference INCAR without ENCUT makes [from_task_doc] raise
    [KeyError('ENCUT')], whatever the task's own INCAR holds; and when the
    reference has an ENCUT, a task whose [orig_inputs] give none makes it
    raise [TypeError], from [float(None)]. *)
Theorem encut_missing_raises task_doc tol input_sets fields thr dep mk vis st :
  input_sets !! task_type task_doc = Some mk →
  mk (out_structure (output task_doc)) = Ok vis →
  check_kpts vis (orig_inputs task_doc) tol ([], ∅) = Ok st →
  (incar_ENCUT (vis_incar vis) = None →
   from_task_doc task_doc tol input_sets fields thr dep = Raise (KeyError "ENCUT")) ∧
  (is_Some (incar_ENCUT (vis_incar vis)) →
   incar_ENCUT (inputs_incar (orig_inputs task_doc)) = None →
   from_task_doc task_doc tol input_sets fields thr dep = Raise TypeError).
Proof.
  intros Hmk Hvis Hk. destruct st as [reasons data].
  split; [intros Hve | intros [ve Hve] Hencut];
    unfold from_task_doc, reference_checks, numeric_checks;
    rewrite Hmk, Hvis; cbn [mbind Result_bind]; rewrite Hk;
    cbn [mbind Result_bind]; unfold check_encut; rewrite Hve;
    cbn [mbind Result_bind subscript]; [done|].
  by rewrite Hencut.
Qed.

(** X12. With a reference input set, a document is returned only if the
    last ionic step of the latest calculation has at least two electronic
    steps, and only if INCAR's [NLEMDL], when given, is smaller than their
    number: otherwise [np.gradient] or [np.max] raises.  The gradient has
    one value per electronic step. *)
Theorem scf_check_needs_two_steps task_doc tol input_sets fields thr dep mk doc :
  input_sets !! task_type task_doc = Some mk →
  from_task_doc task_doc tol input_sets fields thr dep = Ok doc →
  ∃ energies gradient,
    scf_energies task_doc = Ok energies ∧
    np_gradient energies = Ok gradient ∧
    (2 ≤ length energies)%nat ∧
    length gradient = length energies ∧
    ∀ k, incar_NLEMDL (inputs_incar (orig_inputs task_doc)) = Some k →
         k < Z.of_nat (length energies).
Proof.
  intros Hmk Hdoc.
  destruct (from_task_doc_reference _ _ _ _ _ _ _ _ Hmk Hdoc)
    as (vis & st & _ & Hout & _).
  destruct Hout as [vnk kr ve f er bl es mg _ _ _ _ _ _ Hes Hmg].
  unfold max_scf_gradient in Hmg. inv_bind Hmg.
  destruct (np_gradient_length _ _ Ha) as [Htwo Hlen].
  exists es, a. split_and!; try done.
  intros k Hk. rewrite Hk in Hmg. unfold slice_from in Hmg.
  destruct (0 <=? k) eqn:Hpos; [|apply Z.leb_gt in Hpos; lia].
  apply Z.leb_le in Hpos.
  destruct (decide (k < Z.of_nat (length es))) as [|Hge]; [done|].
  rewrite drop_ge in Hmg by lia. done.
Qed.

(** ** The thresholds *)

Lemma from_task_doc_complete task_doc tol input_sets fields thr dep st rt :
  reference_checks task_doc tol input_sets fields thr = Ok st →
  run_type task_doc = Ok rt →
  ∃ doc,
    from_task_doc task_doc tol input_sets fields thr dep = Ok doc ∧
    reasons doc =
      st.1 ++ flag (bool_decide (manual_tags task_doc (default [] dep) ≠ ∅)) MANUAL ∧
    data doc = st.2.
Proof.
  intros Hst Hrt. unfold from_task_doc. rewrite Hst. cbn [mbind Result_bind].
  rewrite Hrt. cbn [mbind Result_bind]. eexists. split; [done|].
  simpl. by rewrite flag_app.
Qed.

(** X13. The two thresholds decide their own flag and nothing else: if
    [from_task_doc] returns a document for some [kpts_tolerance] and
    [max_allowed_scf_gradient], it returns one for any others, with the
    same [data] and the same flags other than KPTS and MAX_SCF; a lower
    tolerance never adds KPTS and a higher allowed gradient never adds
    MAX_SCF. *)
Theorem thresholds_move_only_their_flags
    task_doc tol thr tol' thr' input_sets fields dep doc :
  from_task_doc task_doc tol input_sets fields thr dep = Ok doc →
  ∃ doc',
    from_task_doc task_doc tol' input_sets fields thr' dep = Ok doc' ∧
    data doc' = data doc ∧
    (∀ m, m ≠ KPTS → m ≠ MAX_SCF → (m ∈ reasons doc' ↔ m ∈ reasons doc)) ∧
    (PrimFloat.leb tol' tol = true → KPTS ∈ reasons doc' → KPTS ∈ reasons doc) ∧
    (PrimFloat.leb thr thr' = true →
     MAX_SCF ∈ reasons doc' → MAX_SCF ∈ reasons doc).
Proof.
  intros (st & rt & Hst & Hrt & Hr & Hd & _)%from_task_doc_Ok.
  pose proof Hst as Hst0. apply reference_checks_Ok in Hst.
  destruct (input_sets !! task_type task_doc) as [mk|] eqn:Hmk.
  - destruct Hst as (vis & Hvis & Hout).
    destruct Hout as [vnk kr ve f er bl es mg Hvnk Hkr Hve Hf Her Hbl Hes Hmg].
    pose proof (NumericOutcome task_doc vis tol' fields thr' _ _ _ _ _ _ _ _
                  Hvnk Hkr Hve Hf Her Hbl Hes Hmg) as Hout'.
    apply numeric_outcome_checks in Hout'.
    match type of Hout' with
    | _ = Ok ?st' =>
        assert (reference_checks task_doc tol' input_sets fields thr' = Ok st')
          as Hst'
    end.
    { unfold reference_checks. rewrite Hmk, Hvis. exact Hout'. }
    destruct (from_task_doc_complete _ _ _ _ _ dep _ _ Hst' Hrt)
      as (doc' & Hdoc' & Hr' & Hd').
    exists doc'. simpl in *. rewrite Hr, Hr', Hd, Hd'.
    split_and!; try done.
    + intros m Hk Hs. rewrite !elem_of_app, !elem_of_flag. naive_solver.
    + intros Hle. rewrite !elem_of_app, !elem_of_flag.
      intros [[[Hlt _]|[[_ [=]]|[[_ [=]]|[_ [=]]]]]|[_ [=]]].
      left. left. split; [|done]. by eapply ltb_leb_trans.
    + intros Hle. rewrite !elem_of_app, !elem_of_flag.
      intros [[[_ [=]]|[[_ [=]]|[[_ [=]]|[Hlt _]]]]|[_ [=]]].
      left. right. right. right. split; [|done]. by eapply leb_ltb_trans.
  - subst st.
    assert (reference_checks task_doc tol' input_sets fields thr' = Ok ([], ∅))
      as Hst'.
    { unfold reference_checks. by rewrite Hmk. }
    destruct (from_task_doc_complete _ _ _ _ _ dep _ _ Hst' Hrt)
      as (doc' & Hdoc' & Hr' & Hd').
    exists doc'. simpl in *. rewrite Hr, Hr', Hd, Hd'. by split_and!.
Qed.

(** ** [TaskDocument.entry] and [run_type] *)

(** X14. [entry] returns exactly when the task has an output structure
    and at least one calculation step.  Without a structure it raises
    [AttributeError], also when there is no step; with a structure and no
    step it raises [IndexError]. *)
Theorem entry_returns_iff task_doc :
  ((∃ e, entry task_doc = Ok e) ↔
     is_Some (out_structure (output task_doc)) ∧ calcs_reversed task_doc ≠ []) ∧
  (out_structure (output task_doc) = None →
     entry task_doc = Raise AttributeError) ∧
  (is_Some (out_structure (output task_doc)) → calcs_reversed task_doc = [] →
     entry task_doc = Raise IndexError).
Proof.
  unfold entry, run_type.
  destruct (out_structure (output task_doc)) as [s|],
           (calcs_reversed task_doc) as [|c rest]; simpl.
  - split_and!; [|done|done].
    split; [by intros [e [=]] | by intros [_ ?]].
  - split_and!; [|done|done].
    split; [intros _; split; [by eexists|done] | intros _; by eexists].
  - split_and!; [|done|by intros [? [=]]].
    split; [by intros [e [=]] | by intros [[? [=]] _]].
  - split_and!; [|done|by intros [? [=]]].
    split; [by intros [e [=]] | by intros [[? [=]] _]].
Qed.

(** X15. In the parameters handed to the run-type classifier, the three
    LDAU keys always come from the INCAR of the calculation step, an
    absent one as the empty list, also when the step's [parameters] give a
    value for that key; every other key comes from [parameters]. *)
Theorem run_type_args_lookup (c : Calc) (k : string) :
  let inp := default empty_calc_input (calc_input c) in
  let inc := default empty_incar (ci_incar inp) in
  (k ∈ ["LDAUL"; "LDAUJ"; "LDAUU"] →
   run_type_args c !! k = Some (VList (default [] (incar_lists inc !! k)))) ∧
  (k ∉ ["LDAUL"; "LDAUJ"; "LDAUU"] →
   run_type_args c !! k = default ∅ (ci_parameters inp) !! k).
Proof.
  cbv zeta. unfold run_type_args, ldau_fields_of. split.
  - intros Hk. apply lookup_union_Some_l.
    rewrite !elem_of_cons in Hk.
    destruct Hk as [->|[->|[->|Hk]]]; [by simplify_map_eq..|].
    by apply elem_of_nil in Hk.
  - intros Hk. apply lookup_union_r.
    rewrite !not_elem_of_cons in Hk. destruct Hk as (H1 & H2 & H3 & _).
    simpl. by rewrite !lookup_insert_ne.
Qed.

End MoreValidation.

(** ** The values of [DeprecationMessage] *)

(** X17. The values of the deprecation codes identify them: looking a
    member's value up gives the member back, a successful lookup returns
    a member with the value asked for, and so no two members share a
    value. *)
Theorem DeprecationMessage_value_round_trip :
  (∀ m, DeprecationMessage_of_value (DeprecationMessage_value m) = Ok m) ∧
  (∀ v m, DeprecationMessage_of_value v = Ok m → DeprecationMessage_value m = v) ∧
  (∀ m m', DeprecationMessage_value m = DeprecationMessage_value m' → m = m').
Proof.
  assert (∀ m, DeprecationMessage_of_value (DeprecationMessage_value m) = Ok m)
    as Hround by by intros [].
  split_and!; [done| |].
  - intros v m. unfold DeprecationMessage_of_value.
    destruct (find _ _) as [m'|] eqn:Hfind; [|done]. intros [= ->].
    apply find_some in Hfind as [_ Heq]. by apply String.eqb_eq.
  - intros m m' Heq. pose proof (Hround m) as H. rewrite Heq, Hround in H.
    by injection H.
Qed.

(** * Properties of [molecule_resources.py] *)

Module MoleculeResourcesFacts.
Import MoleculeResources.

Lemma startswith_append (s sep : string) :
  startswith s sep = true →
  s = String.append sep (string_from (String.length sep) s).
Proof.
  revert s. induction sep as [|p sep IH]; intros s; [done|].
  destruct s as [|c s]; [done|].
  change (startswith (String c s) (String p sep))
    with (Ascii.eqb c p && startswith s sep).
  change (String.append (String p sep)
            (string_from (String.length (String p sep)) (String c s)))
    with (String p (String.append sep (string_from (String.length sep) s))).
  intros [Hc Hs]%andb_prop. apply Ascii.eqb_eq in Hc as ->.
  f_equal. by apply IH.
Qed.

Lemma split_1_unfold (sep s : string) :
  split_1 sep s =
  if startswith s sep then [EmptyString; string_from (String.length sep) s]
  else
    match s with
    | EmptyString => [EmptyString]
    | String c s' =>
        match split_1 sep s' with
        | head :: rest => String c head :: rest
        | [] => [String c EmptyString]
        end
    end.
Proof. by destruct s. Qed.

(** [split(sep, 1)] gives one or two parts. *)
Lemma split_1_length (sep s : string) :
  length (split_1 sep s) = 1%nat ∨ length (split_1 sep s) = 2%nat.
Proof.
  induction s as [|c s IH]; rewrite split_1_unfold.
  - destruct (startswith "" sep); auto.
  - destruct (startswith (String c s) sep); [by right|].
    destruct (split_1 sep s) as [|hd rest]; [by left|done].
Qed.

(** Joining the parts with the separator gives the string back. *)
Lemma split_1_join (sep s : string) :
  match split_1 sep s with
  | [whole] => whole = s
  | [before; after] => String.append before (String.append sep after) = s
  | _ => False
  end.
Proof.
  induction s as [|c s IH]; rewrite split_1_unfold.
  - destruct (startswith "" sep) eqn:Hs; [|done].
    by apply startswith_append in Hs.
  - destruct (startswith (String c s) sep) eqn:Hs.
    + by apply startswith_append in Hs.
    + destruct (split_1 sep s) as [|hd [|after [|]]]; try done.
      * by rewrite IH.
      * rewrite <- IH. reflexivity.
Qed.

Lemma startswith_empty (s : string) : startswith s EmptyString = true.
Proof. by destruct s. Qed.

Lemma split_1_at_separator (u : string) :
  split_1 "://" (String.append "://" u) = [EmptyString; u].
Proof.
  rewrite split_1_unfold.
  change (startswith (String.append "://" u) "://") with (startswith u EmptyString).
  by rewrite startswith_empty.
Qed.

Lemma split_1_cons (sep s before after : string) (c : Ascii.ascii) :
  startswith (String c s) sep = false →
  split_1 sep s = [before; after] →
  split_1 sep (String c s) = [String c before; after].
Proof. intros Hs H. rewrite split_1_unfold, Hs, H. done. Qed.

Lemma split_1_prefixed (u : string) :
  split_1 "://" (String.append "mongodb+srv://" u) = ["mongodb+srv"; u].
Proof.
  change (String.append "mongodb+srv://" u)
    with (String.append "mongodb+srv" (String.append "://" u)).
  pose proof (split_1_at_separator u) as H.
  remember (String.append "://" u) as t eqn:Ht. clear Ht.
  cbn [String.append].
  repeat (apply split_1_cons; [reflexivity|]). exact H.
Qed.

(** X18. The rewriting of the database URI leaves a URI that contains
    [://] unchanged and prepends [mongodb+srv://] to any other; its
    result always splits at [://] into two parts, so rewriting a second
    time changes nothing. *)
Theorem with_scheme_normalises (db_uri : string) :
  (length (split_1 "://" db_uri) = 2%nat → with_scheme db_uri = db_uri) ∧
  (length (split_1 "://" db_uri) = 1%nat →
     with_scheme db_uri = String.append "mongodb+srv://" db_uri) ∧
  length (split_1 "://" (with_scheme db_uri)) = 2%nat ∧
  with_scheme (with_scheme db_uri) = with_scheme db_uri.
Proof.
  assert (length (split_1 "://" (with_scheme db_uri)) = 2%nat) as Htwo.
  { unfold with_scheme.
    destruct (split_1_length "://" db_uri) as [H|H]; rewrite H.
    - change (length (split_1 "://" (String.append "mongodb+srv://" db_uri))
              = 2%nat).
      by rewrite split_1_prefixed.
    - exact H. }
  split_and!; [| |done|].
  - intros H. unfold with_scheme. by rewrite H.
  - intros H. unfold with_scheme. by rewrite H.
  - unfold with_scheme at 1. by rewrite Htwo.
Qed.

(** X19. Importing the module fails with [KeyError] when
    [MAPI_DB_NAME_SUFFIX] is not set, whether or not a host is given;
    otherwise with [RuntimeError] when [MPCONTRIBS_MONGO_HOST] is unset or
    empty; and otherwise it registers, under ["molecules"], fourteen
    resources whose stores all use the rewritten URI, which names a
    scheme, and the database [mp_molecules]. *)
Theorem resources_outcome (environ : gmap string string) :
  (environ !! "MAPI_DB_NAME_SUFFIX" = None →
     resources environ = inl (EnvKeyError "MAPI_DB_NAME_SUFFIX")) ∧
  (is_Some (environ !! "MAPI_DB_NAME_SUFFIX") →
   environ !! "MPCONTRIBS_MONGO_HOST" = None ∨
   environ !! "MPCONTRIBS_MONGO_HOST" = Some EmptyString →
     resources environ
       = inl (RuntimeError "Must specify MongoDB URI containing inputs.")) ∧
  (∀ db_uri,
     is_Some (environ !! "MAPI_DB_NAME_SUFFIX") →
     environ !! "MPCONTRIBS_MONGO_HOST" = Some db_uri →
     db_uri ≠ EmptyString →
     ∃ l, resources environ = inr {[ "molecules" := l ]} ∧
          length l = 14%nat ∧
          ∀ r, r ∈ l →
            uri (resource_store r) = with_scheme db_uri ∧
            length (split_1 "://" (uri (resource_store r))) = 2%nat ∧
            database (resource_store r) = "mp_molecules").
Proof.
  unfold resources. split_and!.
  - by intros ->.
  - intros [suffix ->] [->| ->]; done.
  - intros db_uri [suffix ->] -> Hne.
    destruct db_uri as [|c u]; [done|].
    eexists. split; [reflexivity|]. split; [reflexivity|].
    intros r Hr.
    pose proof (with_scheme_normalises (String c u)) as (_ & _ & Htwo & _).
    cbn [app] in Hr. rewrite !elem_of_cons in Hr.
    destruct Hr as [->|[->|[->|[->|[->|[->|[->|[->|[->|[->|[->|[->|[->|[->|Hr]]]]]]]]]]]]]];
      [by split_and!..|].
    by apply elem_of_nil in Hr.
Qed.

(** X20. Only the presence of [MAPI_DB_NAME_SUFFIX] matters: its value
    does not change the result. *)
Theorem resources_ignore_suffix_value
    (environ : gmap string string) (suffix suffix' : string) :
  resources (<["MAPI_DB_NAME_SUFFIX" := suffix]> environ) =
  resources (<["MAPI_DB_NAME_SUFFIX" := suffix']> environ).
Proof.
  unfold resources. rewrite !lookup_insert_eq.
  by rewrite !lookup_insert_ne.
Qed.

End MoleculeResourcesFacts.

(** ** The further properties at sample documents *)

Module MoreWitness.
Import Sample MoreSample.
#[local] Existing Instance collaborators.



Lemma reasons_follow_check_order_witness :
  ∃ doc,
    validate (task incar_U None ["deprecated"])
      (reference (PInt 520) [[4; 4; 4]]) None = Ok doc ∧
    reasons doc = [KPTS; MANUAL] ∧
    sublist (reasons doc) [KPTS; ENCUT; LDAU; MAX_SCF; MANUAL] ∧
    NoDup (reasons doc).
Proof.
  destruct (validate (task incar_U None ["deprecated"])
              (reference (PInt 520) [[4; 4; 4]]) None) as [doc|e] eqn:E;
    [|by vm_compute in E].
  pose proof E as E'. unfold validate in E'.
  destruct (reasons_follow_check_order _ _ _ _ _ _ _ E') as (Hsub & Hnd & _).
  exists doc. split_and!; [done| |done|done].
  vm_compute in E. by injection E as <-.
Defined.

Lemma data_keys_with_reference_witness :
  ∃ doc,
    validate (task incar_U (Some grid444) [])
      (reference (PInt 520) [[4; 4; 4]]) None = Ok doc ∧
    dom (data doc) = ({[ "kpts_ratio"; "encut_ratio"; "max_gradient" ]} : gset string).
Proof.
  destruct (validate (task incar_U (Some grid444) [])
              (reference (PInt 520) [[4; 4; 4]]) None) as [doc|e] eqn:E;
    [|by vm_compute in E].
  exists doc. split; [done|]. unfold validate in E.
  exact (data_keys_with_reference _ _ _ _ _ _ _ _
           (Witness.input_sets_lookup _ _) E).
Defined.

Lemma valid_iff_all_checks_pass_witness :
  ∃ doc,
    validate (task incar_U (Some grid444) [])
      (reference (PInt 520) [[4; 4; 4]]) None = Ok doc ∧
    valid doc = true ∧ LDAU ∉ reasons doc.
Proof.
  destruct (validate (task incar_U (Some grid444) [])
              (reference (PInt 520) [[4; 4; 4]]) None) as [doc|e] eqn:E;
    [|by vm_compute in E].
  pose proof E as E'. unfold validate in E'.
  destruct (valid_iff_all_checks_pass _ _ _ _ _ _ _ _
              (Witness.input_sets_lookup _ _) E')
    as (kr & er & mg & _ & _ & _ & Hiff).
  assert (valid doc = true) as Hv.
  { vm_compute in E. by injection E as <-. }
  exists doc. split_and!; [done|done|]. by apply Hiff in Hv as (_ & _ & ? & _).
Defined.

Lemma ldau_not_required_never_flagged_witness :
  ∃ doc,
    validate (task incar_U_OFe (Some grid444) []) reference_GGA None = Ok doc ∧
    LDAU ∉ reasons doc.
Proof.
  destruct (validate (task incar_U_OFe (Some grid444) []) reference_GGA None)
    as [doc|e] eqn:E; [|by vm_compute in E].
  exists doc. split; [done|]. unfold validate in E.
  exact (ldau_not_required_never_flagged _ _ _ _ _ _ _ reference_GGA _
           (Witness.input_sets_lookup _ _) eq_refl eq_refl E).
Defined.

Lemma ldau_missing_observed_tag_not_flagged_witness :
  ∃ doc,
    validate (task incar_GGA (Some grid444) [])
      (reference (PInt 520) [[4; 4; 4]]) None = Ok doc ∧
    LDAU ∉ reasons doc.
Proof.
  destruct (validate (task incar_GGA (Some grid444) [])
              (reference (PInt 520) [[4; 4; 4]]) None) as [doc|e] eqn:E;
    [|by vm_compute in E].
  exists doc. split; [done|]. unfold validate in E.
  refine (ldau_missing_observed_tag_not_flagged
            (task incar_GGA (Some grid444) []) _ _ _ _ _ "LDAUU" _ _ _ E).
  - unfold LDAU_fields. by left.
  - reflexivity.
Defined.

Lemma ldau_no_fields_never_flagged_witness :
  ∃ doc,
    from_task_doc (task_on FeO incar_U_OFe (Some grid444) []) 0.9%float
      (input_sets (reference (PInt 520) [[4; 4; 4]])) [] 1000%float None
      = Ok doc ∧
    LDAU ∉ reasons doc.
Proof.
  destruct (from_task_doc (task_on FeO incar_U_OFe (Some grid444) [])
              0.9%float (input_sets (reference (PInt 520) [[4; 4; 4]])) []
              1000%float None) as [doc|e] eqn:E; [|by vm_compute in E].
  exists doc. split; [done|].
  exact (ldau_no_fields_never_flagged _ _ _ _ _ _ E).
Defined.

Lemma any_mismatch_raises_KeyError_witness :
  ∃ before el params after,
    [("Fe", [PInt 9]); ("O", [PInt 2]); ("Li", [PInt 1])]
      = before ++ (el, params) :: after ∧
    dict_get el [("Fe", [PInt 9])] = None ∧
    KeyError "O" = KeyError el.
Proof.
  destruct (any_mismatch_raises_KeyError [("Fe", [PInt 9])]
              [("Fe", [PInt 9]); ("O", [PInt 2]); ("Li", [PInt 1])]
              (KeyError "O") eq_refl)
    as (before & el & params & after & H1 & H2 & H3 & _).
  by exists before, el, params, after.
Defined.

Lemma empty_calcs_reversed_raises_witness :
  from_task_doc (with_calcs_reversed (task incar_U (Some grid444) []) [])
    0.9%float ∅ LDAU_fields 1000%float None = Raise IndexError.
Proof.
  destruct (empty_calcs_reversed_raises
              (with_calcs_reversed (task incar_U (Some grid444) []) [])
              0.9%float ∅ LDAU_fields 1000%float None eq_refl) as [_ H].
  by apply H.
Defined.

Lemma encut_missing_raises_witness :
  validate (task incar_no_ENCUT (Some grid444) [])
    (reference (PInt 520) [[4; 4; 4]]) None = Raise TypeError.
Proof.
  destruct (check_kpts (reference (PInt 520) [[4; 4; 4]])
              (orig_inputs (task incar_no_ENCUT (Some grid444) []))
              0.9%float ([], ∅)) as [st|e] eqn:Hk; [|by vm_compute in Hk].
  destruct (encut_missing_raises (task incar_no_ENCUT (Some grid444) [])
              0.9%float (input_sets (reference (PInt 520) [[4; 4; 4]]))
              LDAU_fields 1000%float None _ _ st
              (Witness.input_sets_lookup _ _) eq_refl Hk) as [_ H].
  apply H; [by eexists|reflexivity].
Defined.

Lemma scf_check_needs_two_steps_witness :
  ∃ doc energies,
    validate (task incar_skip_1 (Some grid444) [])
      (reference (PInt 520) [[4; 4; 4]]) None = Ok doc ∧
    scf_energies (task incar_skip_1 (Some grid444) []) = Ok energies ∧
    (2 ≤ length energies)%nat ∧ 1 < Z.of_nat (length energies).
Proof.
  destruct (validate (task incar_skip_1 (Some grid444) [])
              (reference (PInt 520) [[4; 4; 4]]) None) as [doc|e] eqn:E;
    [|by vm_compute in E].
  pose proof E as E'. unfold validate in E'.
  destruct (scf_check_needs_two_steps _ _ _ _ _ _ _ _
              (Witness.input_sets_lookup _ _) E')
    as (es & g & Hes & _ & Htwo & _ & Hskip).
  exists doc, es. split_and!; [done..|]. by apply Hskip.
Defined.

Lemma thresholds_move_only_their_flags_witness :
  ∃ doc doc',
    validate (task incar_U None []) (reference (PInt 520) [[4; 4; 4]]) None
      = Ok doc ∧
    from_task_doc (task incar_U None []) 0.01%float
      (input_sets (reference (PInt 520) [[4; 4; 4]])) LDAU_fields 2000%float None
      = Ok doc' ∧
    data doc' = data doc ∧
    (KPTS ∈ reasons doc' → KPTS ∈ reasons doc).
Proof.
  destruct (validate (task incar_U None [])
              (reference (PInt 520) [[4; 4; 4]]) None) as [doc|e] eqn:E;
    [|by vm_compute in E].
  pose proof E as E'. unfold validate in E'.
  destruct (thresholds_move_only_their_flags _ _ _ 0.01%float 2000%float
              _ _ _ _ E') as (doc' & Hdoc' & Hd & _ & Hk & _).
  exists doc, doc'. split_and!; [done..|]. by apply Hk.
Defined.

Lemma entry_returns_iff_witness :
  (∃ e, entry (task incar_U (Some grid444) []) = Ok e) ∧
  entry (with_calcs_reversed (task incar_U (Some grid444) []) [])
    = Raise IndexError.
Proof.
  split.
  - destruct (entry_returns_iff (task incar_U (Some grid444) [])) as (H & _ & _).
    apply H. split; [by eexists|done].
  - destruct (entry_returns_iff
                (with_calcs_reversed (task incar_U (Some grid444) []) []))
      as (_ & _ & H).
    apply H; [by eexists|reflexivity].
Defined.

Lemma run_type_args_lookup_witness :
  run_type_args (calc incar_GGA energies) !! "LDAUU" = Some (VList []) ∧
  run_type_args (calc incar_GGA energies) !! "ENCUT" = None.
Proof.
  split.
  - destruct (run_type_args_lookup (calc incar_GGA energies) "LDAUU") as [H _].
    apply H. set_solver.
  - destruct (run_type_args_lookup (calc incar_GGA energies) "ENCUT") as [_ H].
    rewrite H; [reflexivity|].
    rewrite !not_elem_of_cons. split_and!; try done. apply not_elem_of_nil.
Defined.

Lemma DeprecationMessage_value_round_trip_witness :
  DeprecationMessage_of_value "E002" = Ok MAX_SCF ∧
  DeprecationMessage_value MAX_SCF = "E002".
Proof.
  destruct DeprecationMessage_value_round_trip as (Hround & Hval & _).
  split; [exact (Hround MAX_SCF)|].
  exact (Hval "E002" MAX_SCF (Hround MAX_SCF)).
Defined.

Lemma with_scheme_normalises_witness :
  MoleculeResources.with_scheme "cluster0.example.net"
    = "mongodb+srv://cluster0.example.net" ∧
  MoleculeResources.with_scheme "mongodb://localhost:27017"
    = "mongodb://localhost:27017".
Proof.
  split.
  - destruct (MoleculeResourcesFacts.with_scheme_normalises
                "cluster0.example.net") as (_ & H & _).
    rewrite H; reflexivity.
  - destruct (MoleculeResourcesFacts.with_scheme_normalises
                "mongodb://localhost:27017") as (H & _).
    rewrite H; reflexivity.
Defined.

Lemma resources_outcome_witness :
  ∃ l,
    MoleculeResources.resources environ = inr {[ "molecules" := l ]} ∧
    length l = 14%nat ∧
    ∀ r, r ∈ l →
      MoleculeResources.uri (MoleculeResources.resource_store r)
        = "mongodb+srv://cluster0.example.net".
Proof.
  destruct (MoleculeResourcesFacts.resources_outcome environ) as (_ & _ & H).
  destruct (H "cluster0.example.net") as (l & Hl & Hlen & Hall);
    [by eexists|reflexivity|done|].
  exists l. split_and!; [done..|].
  intros r Hr. destruct (Hall r Hr) as (Hu & _). rewrite Hu.
  destruct (MoleculeResourcesFacts.with_scheme_normalises
              "cluster0.example.net") as (_ & Hw & _).
  rewrite Hw; reflexivity.
Defined.

End MoreWitness.
